(** * Alpaca trading bot: a shallow embedding of [main.py]

    The development follows the single source file of the repository.

    - A Python float is the rational it denotes, or not-a-number
      ([pyfloat]); infinities are not modelled.  Comparisons are those of
      the rationals, and false when [NaN] is involved, as in Python.
    - A pandas [DataFrame] of bars is a list of rows.  Where
      [rolling(window).mean()] is missing is fixed by the positions and the
      missing observations ([min_periods = window]); the float64 value it
      computes elsewhere is the operation of an interface,
      [RollingArithmetic], and is not fixed by this development.
    - The brokerage SDK is an external collaborator: a record of operations
      over an abstract [World], each of which may raise.
    - Methods of [TradingBot] live in a small state-and-exception monad over
      a configuration holding the object, the world and the trace of
      observable events (SDK calls and sleeps).  Logging is not modelled. *)

From Stdlib Require Import ZArith QArith Qabs String Ascii List Bool Lia Lqa.
Import ListNotations.

Local Open Scope Z_scope.

(** ** Exceptions and results *)

(** Instances of Python's [Exception].  Process-level signals that are not
    subclasses of [Exception] are outside the model, so a bare [except:] and
    [except Exception] coincide. *)
Inductive exn : Type :=
| ValueError (msg : string)
| IndexError (msg : string)
| APIError (msg : string)
| ConnectionError (msg : string).

Inductive result (A : Type) : Type :=
| Ok (a : A)
| Raise (e : exn).
Arguments Ok {A} a.
Arguments Raise {A} e.

(** ** Floats *)

Inductive pyfloat : Type :=
| NaN
| Fin (q : Q).

(** [pd.isna] *)
Definition isna (x : pyfloat) : bool :=
  match x with NaN => true | Fin _ => false end.

(** [a <= b] *)
Definition fle (a b : pyfloat) : bool :=
  match a, b with
  | Fin x, Fin y => Qle_bool x y
  | _, _ => false
  end.

(** [a < b] *)
Definition flt (a b : pyfloat) : bool :=
  match a, b with
  | Fin x, Fin y => negb (Qle_bool y x)
  | _, _ => false
  end.

(** [a >= b] *)
Definition fge (a b : pyfloat) : bool := fle b a.

(** [a > b] *)
Definition fgt (a b : pyfloat) : bool := flt b a.

(** ** Series, rolling means and positional indexing *)

(** The [w] observations that end at position [i] (0-based). *)
Definition window_at {A : Type} (w : nat) (xs : list A) (i : nat) : list A :=
  firstn w (skipn (S i - w) xs).

(** The arithmetic of the rolling mean.  pandas keeps a running,
    compensated float64 sum along the whole series, so the value at a
    position depends on rounding and on the observations before the window.
    [window_mean w xs i] stands for the value it computes at position [i] of
    [xs] when the [w] observations ending there are all present. *)
Class RollingArithmetic : Type := {
  window_mean : nat -> list pyfloat -> nat -> pyfloat
}.

(** Does the window hold a missing observation? *)
Definition has_missing (xs : list pyfloat) : bool := existsb isna xs.

(** The rolling mean at one position: missing for the first [w - 1]
    positions, for an empty window and wherever the window holds a missing
    observation. *)
Definition rolling_at {arith : RollingArithmetic}
           (w : nat) (xs : list pyfloat) (i : nat) : pyfloat :=
  if (w =? 0)%nat || (S i <? w)%nat || has_missing (window_at w xs i) then NaN
  else window_mean w xs i.

(** [series.rolling(window=window).mean()]: one value per position; a
    negative window is rejected. *)
Definition rolling_mean {arith : RollingArithmetic}
           (window : Z) (xs : list pyfloat) : result (list pyfloat) :=
  if window <? 0 then Raise (ValueError "window must be an integer 0 or greater")
  else Ok (map (rolling_at (Z.to_nat window) xs) (seq 0 (length xs))).

(** *** Arithmetic on frames of small integers

    When every observation is an integer and the absolute values add up to
    less than [2^53], every running sum is an integer that float64
    represents, so the only rounding is that of the final division. *)

Definition of_Z (z : Z) : pyfloat := Fin (inject_Z z).

Definition total (zs : list Z) : Z := fold_right Z.add 0 zs.

Definition magnitude (zs : list Z) : Z :=
  fold_right (fun z acc => Z.abs z + acc) 0 zs.

(** [m] is a float64 rounding of the quotient [mu]: the relative error is at
    most [2^-53], and there is none when [mu] is an integer. *)
Definition rounds (mu m : Q) : Prop :=
  (Qabs (m - mu) <= Qabs mu * (1 # 9007199254740992))%Q /\
  (forall k : Z, (mu == inject_Z k)%Q -> (m == mu)%Q).

(** The exact mean of the [w] integers ending at position [i]. *)
Definition mean_of (w : nat) (zs : list Z) (i : nat) : Q :=
  inject_Z (total (window_at w zs i)) / inject_Z (Z.of_nat w).

(** An arithmetic is accurate on small integers when, on such frames, the
    mean of a full window is a rounding of the exact quotient. *)
Definition accurate_on_integers (arith : RollingArithmetic) : Prop :=
  forall (w : nat) (zs : list Z) (i : nat),
    (0 < w <= S i)%nat -> (i < length zs)%nat ->
    Z.of_nat w < 2 ^ 53 -> magnitude zs < 2 ^ 53 ->
    exists m : Q,
      window_mean w (map of_Z zs) i = Fin m /\ rounds (mean_of w zs i) m.

(** *** Exact arithmetic

    The mean without any rounding: the arithmetic used to evaluate the bot
    on explicit frames.  float64 agrees with it up to rounding only. *)

Definition exact_add (a b : pyfloat) : pyfloat :=
  match a, b with
  | Fin x, Fin y => Fin (x + y)
  | _, _ => NaN
  end.

Definition exact_sum (xs : list pyfloat) : pyfloat :=
  fold_left exact_add xs (Fin 0).

Definition exact_mean (xs : list pyfloat) : pyfloat :=
  match xs, exact_sum xs with
  | _ :: _, Fin s => Fin (s / inject_Z (Z.of_nat (length xs)))
  | _, _ => NaN
  end.

Definition exact_arithmetic : RollingArithmetic := {|
  window_mean := fun w xs i => exact_mean (window_at w xs i)
|}.

(** [len(data)] *)
Definition len {A : Type} (l : list A) : Z := Z.of_nat (length l).

(** [frame.iloc[i]] with Python's negative positions. *)
Definition iloc {A : Type} (l : list A) (i : Z) : result A :=
  let j := if i <? 0 then len l + i else i in
  if (0 <=? j) && (j <? len l) then
    match nth_error l (Z.to_nat j) with
    | Some x => Ok x
    | None => Raise (IndexError "single positional indexer is out-of-bounds")
    end
  else Raise (IndexError "single positional indexer is out-of-bounds").

(** ** Data model *)

Record Bar : Type := mkBar {
  bar_open : pyfloat;
  bar_high : pyfloat;
  bar_low : pyfloat;
  close : pyfloat;
  bar_volume : pyfloat
}.

(** A row of the frame once the two average columns were added. *)
Record Row : Type := mkRow {
  row_bar : Bar;
  short_sma : pyfloat;
  long_sma : pyfloat
}.

Inductive Signal : Type := buy | sell | hold.

Fixpoint zip_rows (bars : list Bar) (ss ls : list pyfloat) : list Row :=
  match bars, ss, ls with
  | b :: bars', s :: ss', l :: ls' => mkRow b s l :: zip_rows bars' ss' ls'
  | _, _, _ => []
  end.

(** The two assignments
    [data['short_sma'] = data['close'].rolling(window=short_window).mean()]
    and the same for [long_sma]. *)
Definition add_sma_columns {arith : RollingArithmetic}
           (data : list Bar) (short_window long_window : Z) : result (list Row) :=
  match rolling_mean short_window (map close data) with
  | Raise e => Raise e
  | Ok ss =>
      match rolling_mean long_window (map close data) with
      | Raise e => Raise e
      | Ok ls => Ok (zip_rows data ss ls)
      end
  end.

(** The crossover rule on the two most recent rows. *)
Definition crossover (previous latest : Row) : Signal :=
  if fle (short_sma previous) (long_sma previous)
     && fgt (short_sma latest) (long_sma latest) then buy
  else if fge (short_sma previous) (long_sma previous)
          && flt (short_sma latest) (long_sma latest) then sell
  else hold.

(** ** Entities of the brokerage SDK *)

Record Clock : Type := mkClock { is_open : bool }.

(** The SDK hands monetary fields over as text; the bot converts them. *)
Record Account : Type := mkAccount {
  account_number : string;
  buying_power : string;
  cash : string;
  portfolio_value : string;
  equity : string
}.

Record Position : Type := mkPosition {
  symbol : string;
  qty : string;
  market_value : string;
  avg_entry_price : string
}.

Record Asset : Type := mkAsset { tradable : bool; status : string }.

Record Order : Type := mkOrder { id : string }.

Record OrderRequest : Type := mkOrderRequest {
  req_symbol : string;
  req_qty : Z;
  req_side : string;
  req_type : string;
  req_time_in_force : string
}.

(** The dictionaries returned by the accessors. *)
Record AccountInfo : Type := mkAccountInfo {
  info_buying_power : pyfloat;
  info_cash : pyfloat;
  info_portfolio_value : pyfloat;
  info_equity : pyfloat
}.

Record PositionInfo : Type := mkPositionInfo {
  info_symbol : string;
  info_qty : pyfloat;
  info_market_value : pyfloat;
  info_avg_entry_price : pyfloat
}.

(** Observable events: calls into the SDK and suspensions of the thread. *)
Inductive Event : Type :=
| EvGetClock
| EvGetAccount
| EvGetPosition (sym : string)
| EvGetBars (sym timeframe : string) (limit : Z) (adjustment : string)
| EvGetAsset (sym : string)
| EvSubmitOrder (req : OrderRequest)
| EvSleep (seconds : Z).

(** ** Strings *)

(** [str.lower] on the ASCII range. *)
Definition lower_ascii (c : ascii) : ascii :=
  let n := nat_of_ascii c in
  if (65 <=? n)%nat && (n <=? 90)%nat then ascii_of_nat (n + 32) else c.

Fixpoint lower (s : string) : string :=
  match s with
  | EmptyString => EmptyString
  | String c s' => String (lower_ascii c) (lower s')
  end.

(** [x in l] for a list of strings. *)
Definition str_in (x : string) (l : list string) : bool :=
  existsb (String.eqb x) l.

Section Bot.

(** The float arithmetic of pandas. *)
Context {arith : RollingArithmetic}.

(** The state of everything behind the SDK. *)
Variable World : Type.

(** [tradeapi.REST]: the operations the bot consumes. *)
Record REST : Type := mkREST {
  get_clock : World -> result Clock * World;
  get_account : World -> result Account * World;
  sdk_get_position : string -> World -> result Position * World;
  get_bars : string -> string -> Z -> string -> World -> result (list Bar) * World;
  get_asset : string -> World -> result Asset * World;
  submit_order : OrderRequest -> World -> result Order * World
}.

(** The constructor [tradeapi.REST(api_key, api_secret, base_url)]. *)
Variable tradeapi_REST : string -> string -> string -> result REST.

(** Python's [float(text)]. *)
Variable py_float : string -> result pyfloat.

Record TradingBot : Type := mkTradingBot {
  api : REST;
  account : Account
}.

(** The body elided in [run_bot] ("Rest of your trading logic..."): one
    trading iteration for a symbol, which may raise.  In the source as it
    stands it does nothing. *)
Variable trading_logic :
  string -> TradingBot * World -> result unit * (TradingBot * World).

(** The elided body as the source has it: nothing happens. *)
Definition no_trading_logic (sym : string) (s : TradingBot * World)
  : result unit * (TradingBot * World) := (Ok tt, s).

(** ** The monad of methods *)

Record Config : Type := mkConfig {
  self : TradingBot;
  world : World;
  events : list Event
}.

Definition M (A : Type) : Type := Config -> result A * Config.

Definition ret {A : Type} (a : A) : M A := fun c => (Ok a, c).

Definition bind {A B : Type} (m : M A) (k : A -> M B) : M B :=
  fun c =>
    match m c with
    | (Ok a, c') => k a c'
    | (Raise e, c') => (Raise e, c')
    end.

Definition raise {A : Type} (e : exn) : M A := fun c => (Raise e, c).

(** [try: m  except Exception as e: handler e] *)
Definition try_except {A : Type} (m : M A) (handler : exn -> M A) : M A :=
  fun c =>
    match m c with
    | (Ok a, c') => (Ok a, c')
    | (Raise e, c') => handler e c'
    end.

(** A call [self.api.op(...)], recorded in the trace. *)
Definition api_call {A : Type} (ev : Event)
           (op : REST -> World -> result A * World) : M A :=
  fun c =>
    let (r, w') := op (api (self c)) (world c) in
    (r, mkConfig (self c) w' (events c ++ [ev])).

(** The configuration after a recorded SDK call that left the world [w]. *)
Definition called (c : Config) (ev : Event) (w : World) : Config :=
  mkConfig (self c) w (events c ++ [ev]).

(** [time.sleep(seconds)] *)
Definition sleep (seconds : Z) : M unit :=
  fun c => (Ok tt, mkConfig (self c) (world c) (events c ++ [EvSleep seconds])).

(** [self.account = a] *)
Definition set_account (a : Account) : M unit :=
  fun c => (Ok tt, mkConfig (mkTradingBot (api (self c)) a) (world c) (events c)).

Definition lift_result {A : Type} (r : result A) : M A := fun c => (r, c).

Definition run_logic (sym : string) : M unit :=
  fun c =>
    let '(r, (b, w)) := trading_logic sym (self c, world c) in
    (r, mkConfig b w (events c)).

Notation "x <- c1 ;; c2" := (bind c1 (fun x => c2))
  (at level 61, c1 at next level, right associativity).
Notation "c1 ;; c2" := (bind c1 (fun _ => c2))
  (at level 61, right associativity).

(** ** [TradingBot.__init__] *)

(** The constructor returns the object (or the exception it re-raises),
    the world and the events of its calls. *)
Definition init (api_key api_secret base_url : string) (w : World)
  : result TradingBot * World * list Event :=
  match tradeapi_REST api_key api_secret base_url with
  | Raise e => (Raise e, w, [])
  | Ok rest =>
      match get_clock rest w with
      | (Raise e, w1) => (Raise e, w1, [EvGetClock])
      | (Ok _, w1) =>
          match get_account rest w1 with
          | (Raise e, w2) => (Raise e, w2, [EvGetClock; EvGetAccount])
          | (Ok acct, w2) =>
              (Ok (mkTradingBot rest acct), w2, [EvGetClock; EvGetAccount])
          end
      end
  end.

(** ** Accessors *)

Definition check_market_hours : M bool :=
  try_except
    (clock <- api_call EvGetClock get_clock ;;
     ret (is_open clock))
    (fun _ => ret false).

Definition get_account_info : M AccountInfo :=
  acct <- api_call EvGetAccount get_account ;;
  set_account acct ;;
  bp <- lift_result (py_float (buying_power acct)) ;;
  ca <- lift_result (py_float (cash acct)) ;;
  pv <- lift_result (py_float (portfolio_value acct)) ;;
  eq <- lift_result (py_float (equity acct)) ;;
  ret (mkAccountInfo bp ca pv eq).

Definition get_position (sym : string) : M (option PositionInfo) :=
  try_except
    (position <- api_call (EvGetPosition sym) (fun r => sdk_get_position r sym) ;;
     q <- lift_result (py_float (qty position)) ;;
     mv <- lift_result (py_float (market_value position)) ;;
     ep <- lift_result (py_float (avg_entry_price position)) ;;
     ret (Some (mkPositionInfo (symbol position) q mv ep)))
    (fun _ => ret None).

Definition is_symbol_tradeable (sym : string) : M bool :=
  try_except
    (asset <- api_call (EvGetAsset sym) (fun r => get_asset r sym) ;;
     ret (tradable asset && String.eqb (status asset) "active"))
    (fun _ => ret false).

(** [get_historical_data(symbol, timeframe='1D', limit=100)]; the empty
    frame is the empty list. *)
Definition get_historical_data (sym timeframe : string) (limit : Z)
  : M (list Bar) :=
  try_except
    (barset <- api_call (EvGetBars sym timeframe limit "raw")
                        (fun r => get_bars r sym timeframe limit "raw") ;;
     match barset with
     | [] => ret []
     | _ :: _ =>
         let df := barset in
         match df with
         | [] => ret []
         | _ :: _ => ret df
         end
     end)
    (fun _ => ret []).

(** ** Signal strategies

    The class body defines [simple_moving_average_strategy] twice; the
    second definition replaces the first.  The first is kept here under
    the name [simple_moving_average_strategy_shadowed]. *)

(** First definition (shadowed): default windows 20 and 50. *)
Definition simple_moving_average_strategy_shadowed
           (sym : string) (short_window long_window : Z) : M Signal :=
  data <- get_historical_data sym "1D" (long_window + 10) ;;
  match data with
  | [] => ret hold
  | _ :: _ =>
      if len data <? long_window then ret hold
      else
        rows <- lift_result (add_sma_columns data short_window long_window) ;;
        if len rows <? 2 then ret hold
        else
          latest <- lift_result (iloc rows (-1)) ;;
          previous <- lift_result (iloc rows (-2)) ;;
          if isna (short_sma previous) || isna (long_sma previous) then ret hold
          else ret (crossover previous latest)
  end.

(** Second definition (the one the class ends up with). *)
Definition simple_moving_average_strategy
           (sym : string) (short_window long_window : Z) : M Signal :=
  data <- get_historical_data sym "1D" 100 ;;
  if match data with [] => true | _ :: _ => false end
     || (len data <? long_window) then ret hold
  else
    rows <- lift_result (add_sma_columns data short_window long_window) ;;
    latest <- lift_result (iloc rows (-1)) ;;
    previous <- lift_result (iloc rows (-2)) ;;
    ret (crossover previous latest).

(** ** Order execution *)

Definition execute_trade (sym : string) (q : Z)
           (side type time_in_force : string) : M (option Order) :=
  try_except
    (if negb (str_in (lower side) ["buy"%string; "sell"%string])
     then raise (ValueError "Side must be either 'buy' or 'sell'")
     else
       let req := mkOrderRequest sym q side type time_in_force in
       order <- api_call (EvSubmitOrder req) (fun r => submit_order r req) ;;
       ret (Some order))
    (fun _ => ret None).

(** ** The bot loop *)

Definition max_retries : nat := 3.

(** What one pass through the body of [while True] decides. *)
Inductive loop_ctl : Type :=
| Break
| Next (retry_count : nat).

(** One pass through the loop body, from the value of [retry_count] at the
    loop head.  Nothing after the assignment [retry_count = 0] can raise,
    so the handler sees the value from the loop head. *)
Definition run_bot_iteration (sym : string) (retry_count : nat) : M loop_ctl :=
  try_except
    (if (max_retries <=? retry_count)%nat then ret Break
     else
       open <- check_market_hours ;;
       if negb open then
         sleep 300 ;;
         ret (Next retry_count)
       else
         run_logic sym ;;
         let retry_count := 0%nat in
         sleep 60 ;;
         ret (Next retry_count))
    (fun _ =>
       let retry_count := (retry_count + 1)%nat in
       sleep 10 ;;
       ret (Next retry_count)).

Inductive run : Type := Returned | OutOfFuel.

(** [while True] unrolled at most [fuel] times. *)
Fixpoint run_bot_loop (fuel : nat) (sym : string) (retry_count : nat) : M run :=
  match fuel with
  | O => ret OutOfFuel
  | S fuel' =>
      ctl <- run_bot_iteration sym retry_count ;;
      match ctl with
      | Break => ret Returned
      | Next retry_count' => run_bot_loop fuel' sym retry_count'
      end
  end.

Definition run_bot (fuel : nat) (sym strategy : string)
           (trade_amount : Z) (risk_per_trade : Q) : M run :=
  let retry_count := 0%nat in
  run_bot_loop fuel sym retry_count.

(** The default of [base_url] in [__init__]. *)
Definition default_base_url : string := "https://paper-api.alpaca.markets".

(** The script: build the bot, then run it on AAPL. *)
Definition main (fuel : nat) (api_key api_secret : string) (w : World)
  : result run * World * list Event :=
  match init api_key api_secret default_base_url w with
  | (Raise e, w', evs) => (Raise e, w', evs)
  | (Ok bot, w', evs) =>
      let (r, c) := run_bot fuel "AAPL" "sma" 1000 (1 # 100) (mkConfig bot w' evs) in
      (r, world c, events c)
  end.

(** ** Observing the loop

    What happens in a pass that gets beyond the retry check: the market is
    reported closed, or the trading iteration succeeds, or it raises. *)
Inductive outcome : Type := Closed | Succeeded | Failed.

Definition iteration_outcome (sym : string) (c : Config) : outcome :=
  match check_market_hours c with
  | (Ok true, c1) =>
      match run_logic sym c1 with
      | (Ok _, _) => Succeeded
      | (Raise _, _) => Failed
      end
  | _ => Closed
  end.

(** Failed iterations since the last successful one, in a history given
    oldest first; closed-market passes do not count either way. *)
Fixpoint streak_from (acc : nat) (h : list outcome) : nat :=
  match h with
  | [] => acc
  | Succeeded :: h' => streak_from 0 h'
  | Failed :: h' => streak_from (S acc) h'
  | Closed :: h' => streak_from acc h'
  end.

Definition consecutive_failures (h : list outcome) : nat := streak_from 0 h.

(** The retry counter after a pass, by the outcome of the pass. *)
Definition counter_after (o : outcome) (rc : nat) : nat :=
  match o with
  | Succeeded => 0%nat
  | Failed => S rc
  | Closed => rc
  end.

(** The seconds slept at the end of a pass, by its outcome. *)
Definition pause_after (o : outcome) : Z :=
  match o with
  | Closed => 300
  | Succeeded => 60
  | Failed => 10
  end.

(** [loop_head sym c0 h rc c]: started by [run_bot] in [c0], the loop is
    back at its head with [retry_count = rc] in configuration [c], after
    the passes whose outcomes are [h]. *)
Inductive loop_head (sym : string) (c0 : Config)
  : list outcome -> nat -> Config -> Prop :=
| head_start : loop_head sym c0 [] 0%nat c0
| head_next (h : list outcome) (rc : nat) (c : Config) (rc' : nat) (c' : Config) :
    loop_head sym c0 h rc c ->
    run_bot_iteration sym rc c = (Ok (Next rc'), c') ->
    loop_head sym c0 (h ++ [iteration_outcome sym c]) rc' c'.

End Bot.

Arguments mkConfig {World} self world events.
Arguments mkTradingBot {World} api account.
Arguments self {World} c.
Arguments world {World} c.
Arguments events {World} c.
Arguments api {World} t.
Arguments account {World} t.
Arguments ret {World A} a _.
Arguments bind {World A B} m k _.
Arguments raise {World A} e _.
Arguments try_except {World A} m handler _.
Arguments api_call {World A} ev op _.
Arguments sleep {World} seconds _.
Arguments called {World} c ev w.
Arguments set_account {World} a _.
Arguments lift_result {World A} r _.
Arguments run_logic {World} trading_logic sym _.
Arguments init {World} tradeapi_REST api_key api_secret base_url w.
Arguments check_market_hours {World} _.
Arguments get_account_info {World} py_float _.
Arguments get_position {World} py_float sym _.
Arguments is_symbol_tradeable {World} sym _.
Arguments get_historical_data {World} sym timeframe limit _.
Arguments simple_moving_average_strategy_shadowed {arith World} sym short_window long_window _.
Arguments simple_moving_average_strategy {arith World} sym short_window long_window _.
Arguments execute_trade {World} sym q side type time_in_force _.
Arguments run_bot_iteration {World} trading_logic sym retry_count _.
Arguments run_bot_loop {World} trading_logic fuel sym retry_count _.
Arguments run_bot {World} trading_logic fuel sym strategy trade_amount risk_per_trade _.
Arguments main {World} tradeapi_REST trading_logic fuel api_key api_secret w.
Arguments iteration_outcome {World} trading_logic sym c.
Arguments no_trading_logic {World} sym s.
Arguments loop_head {World} trading_logic sym c0 _ _ _.
Arguments get_clock {World} r _.
Arguments get_account {World} r _.
Arguments sdk_get_position {World} r _ _.
Arguments get_bars {World} r _ _ _ _ _.
Arguments get_asset {World} r _ _.
Arguments submit_order {World} r _ _.

(** ** A simulated broker

    A concrete, deterministic instance of the SDK, used to evaluate the bot
    on explicit inputs. *)
Module PaperBroker.

Record world : Type := mkWorld {
  history : list Bar;        (* bars of the symbol, oldest first *)
  clock_up : bool;           (* does the clock query answer? *)
  market_open : bool;
  account_up : bool;         (* does the account query answer? *)
  orders_up : bool;          (* are orders accepted? *)
  orders : list OrderRequest (* orders accepted so far *)
}.

Definition the_account : Account :=
  mkAccount "PA0001" "2000" "1000" "3000" "3000".

Definition down {A : Type} : result A := Raise (ConnectionError "unreachable").

(** The most recent [limit] bars. *)
Definition recent (limit : Z) (bars : list Bar) : list Bar :=
  skipn (length bars - Z.to_nat limit) bars.

(** The integer nearest to [n / d], for [d > 0], ties to even. *)
Definition nearest (n d : Z) : Z :=
  let q := n / d in
  match 2 * (n mod d) ?= d with
  | Lt => q
  | Gt => q + 1
  | Eq => if Z.even q then q else q + 1
  end.

(** The float64 nearest to a rational (ties to even, subnormals included);
    [None] beyond the float64 range, where Python has an infinity. *)
Definition binary64 (x : Q) : option Q :=
  let n := Z.abs (Qnum x) in
  let d := Zpos (Qden x) in
  if n =? 0 then Some 0%Q
  else
    let e0 := Z.log2 n - Z.log2 d in
    let below := if 0 <=? e0 then n <? d * 2 ^ e0 else n * 2 ^ (- e0) <? d in
    (* 2^e <= n / d < 2^(e + 1) *)
    let e := if below then e0 - 1 else e0 in
    let u := Z.max (e - 52) (-1074) in
    let m := if 0 <=? u then nearest n (d * 2 ^ u) else nearest (n * 2 ^ (- u)) d in
    let v := if 0 <=? u then inject_Z (m * 2 ^ u) else (m # Z.to_pos (2 ^ (- u)))%Q in
    if Qle_bool (inject_Z (2 ^ 1024)) v then None
    else Some (if Qnum x <? 0 then (- v)%Q else v).

Inductive part : Type := Whole | Fraction | Exponent.

(** Scanning [digits [. digits] [(e|E) [+|-] digits]] with at least one
    digit before the exponent: the digits read so far as an integer, and
    the power of ten to scale it by. *)
Fixpoint scan (p : part) (man fracs : Z) (mdigit eneg : bool) (ex : Z)
         (edigit esign : bool) (s : string) : option (Z * Z) :=
  match s with
  | EmptyString =>
      if mdigit && match p with Exponent => edigit | _ => true end
      then Some (man, (if eneg then - ex else ex) - fracs)
      else None
  | String ch s' =>
      let n := nat_of_ascii ch in
      if (48 <=? n)%nat && (n <=? 57)%nat then
        let dgt := Z.of_nat (n - 48) in
        match p with
        | Whole => scan Whole (10 * man + dgt) fracs true eneg ex edigit esign s'
        | Fraction =>
            scan Fraction (10 * man + dgt) (fracs + 1) true eneg ex edigit esign s'
        | Exponent =>
            scan Exponent man fracs mdigit eneg (10 * ex + dgt) true false s'
        end
      else if (n =? 46)%nat then
        match p with
        | Whole => scan Fraction man fracs mdigit eneg ex edigit esign s'
        | _ => None
        end
      else if (n =? 101)%nat || (n =? 69)%nat then
        match p with
        | Exponent => None
        | _ => if mdigit then scan Exponent man fracs mdigit eneg ex false true s'
               else None
        end
      else if (n =? 43)%nat || (n =? 45)%nat then
        match p with
        | Exponent =>
            if esign then scan Exponent man fracs mdigit (n =? 45)%nat ex false false s'
            else None
        | _ => None
        end
      else None
  end.

Definition unsigned (s : string) : option Q :=
  match scan Whole 0 0 false false 0 false false s with
  | Some (man, k) =>
      Some (if 0 <=? k then inject_Z (man * 10 ^ k)
            else (man # Z.to_pos (10 ^ (- k)))%Q)
  | None => None
  end.

(** [float] on the decimal numerals a broker sends: an optional sign,
    digits with an optional fraction, an optional exponent; the value is
    rounded to float64.  Python also accepts surrounding blanks,
    underscores between digits and the spellings of infinity and
    not-a-number, and answers an infinity beyond the float64 range; such
    texts are rejected here. *)
Definition float (s : string) : result pyfloat :=
  let bad := Raise (ValueError "could not convert string to float") in
  let '(negative, body) :=
    match s with
    | String ch s' =>
        if (nat_of_ascii ch =? 45)%nat then (true, s')
        else if (nat_of_ascii ch =? 43)%nat then (false, s')
        else (false, s)
    | EmptyString => (false, s)
    end in
  match unsigned body with
  | Some q =>
      match binary64 q with
      | Some v => Ok (Fin (if negative then (- v)%Q else v))
      | None => bad
      end
  | None => bad
  end.

Definition rest : REST world :=
  mkREST world
    (fun w => (if clock_up w then Ok (mkClock (market_open w)) else down, w))
    (fun w => (if account_up w then Ok the_account else down, w))
    (fun _ w => (Raise (APIError "position does not exist"), w))
    (fun _ _ limit _ w => (Ok (recent limit (history w)), w))
    (fun _ w => (Ok (mkAsset true "active"), w))
    (fun req w =>
       if orders_up w then
         (Ok (mkOrder "order-1"),
          mkWorld (history w) (clock_up w) (market_open w) (account_up w)
                  true (orders w ++ [req]))
       else (Raise (APIError "order rejected"), w)).

Definition bot : TradingBot world := mkTradingBot rest the_account.

Definition start (w : world) : Config world := mkConfig bot w [].

Definition bar_of_close (c : Z) : Bar :=
  let x := Fin (inject_Z c) in mkBar x x x x (Fin 0).

Definition healthy (closes : list Z) : world :=
  mkWorld (map bar_of_close closes) true true true true [].

(** 50 closes of 10 followed by one close of 11. *)
Definition rising_closes : list Z := repeat 10 50 ++ [11].

(** The clock answers, the account query does not. *)
Definition account_outage : world := mkWorld [] true true false true [].

(** Nothing answers. *)
Definition outage : world := mkWorld [] false false false false [].

(** The exchange is closed. *)
Definition after_hours : world := mkWorld [] true false true true [].

Definition connect (api_key api_secret base_url : string) : result (REST world) :=
  Ok rest.

(** The loop body as it stands in the source: nothing. *)
Definition no_logic (sym : string) (s : TradingBot world * world)
  : result unit * (TradingBot world * world) := (Ok tt, s).

(** A trading iteration that always raises. *)
Definition failing_logic (sym : string) (s : TradingBot world * world)
  : result unit * (TradingBot world * world) :=
  (Raise (APIError "rejected"), s).

End PaperBroker.

(** * Properties *)

(** ** Floats, frames and the crossover rule *)

Lemma fle_Fin (x y : Q) : fle (Fin x) (Fin y) = true <-> (x <= y)%Q.
Proof. simpl. apply Qle_bool_iff. Qed.

Lemma flt_Fin (x y : Q) : flt (Fin x) (Fin y) = true <-> (x < y)%Q.
Proof.
  simpl. rewrite negb_true_iff. split; intro H.
  - apply Qnot_le_lt. intro Hle. apply Qle_bool_iff in Hle. congruence.
  - destruct (Qle_bool y x) eqn:E; [|reflexivity].
    apply Qle_bool_iff in E. exfalso. exact (Qlt_not_le _ _ H E).
Qed.

Lemma crossover_buy_iff (p l : Row) (ps pl ls ll : Q) :
  short_sma p = Fin ps -> long_sma p = Fin pl ->
  short_sma l = Fin ls -> long_sma l = Fin ll ->
  crossover p l = buy <-> (ps <= pl /\ ll < ls)%Q.
Proof.
  intros Hps Hpl Hls Hll. unfold crossover, fge, fgt.
  rewrite Hps, Hpl, Hls, Hll.
  rewrite <- fle_Fin, <- flt_Fin.
  destruct (fle (Fin ps) (Fin pl)), (flt (Fin ll) (Fin ls)); simpl;
    try (split; [intros _; auto | reflexivity]);
    repeat match goal with
           | |- context [if ?b then _ else _] => destruct b
           end;
    split; intro H; try discriminate; destruct H; discriminate.
Qed.

Lemma crossover_sell_iff (p l : Row) (ps pl ls ll : Q) :
  short_sma p = Fin ps -> long_sma p = Fin pl ->
  short_sma l = Fin ls -> long_sma l = Fin ll ->
  crossover p l = sell <-> (pl <= ps /\ ls < ll)%Q.
Proof.
  intros Hps Hpl Hls Hll. unfold crossover, fge, fgt.
  rewrite Hps, Hpl, Hls, Hll.
  rewrite <- fle_Fin, <- flt_Fin.
  destruct (fle (Fin ps) (Fin pl)) eqn:E1, (flt (Fin ll) (Fin ls)) eqn:E2,
           (fle (Fin pl) (Fin ps)) eqn:E3, (flt (Fin ls) (Fin ll)) eqn:E4; simpl;
    try (split; [intros _; auto | reflexivity]);
    try (split; intro H; try discriminate; destruct H; discriminate).
  (* both strict comparisons on the latest row cannot hold together *)
  exfalso. apply flt_Fin in E2, E4.
  exact (Qlt_irrefl _ (Qlt_trans _ _ _ E2 E4)).
Qed.

(** A missing average on the previous row silences the rule. *)
Lemma crossover_previous_missing (p l : Row) :
  isna (short_sma p) || isna (long_sma p) = true -> crossover p l = hold.
Proof.
  unfold crossover, fge. intro H.
  destruct (short_sma p), (long_sma p); simpl in *; try discriminate;
    reflexivity.
Qed.

Section FrameFacts.

Context {arith : RollingArithmetic}.

Lemma rolling_mean_length (w : Z) (xs ys : list pyfloat) :
  rolling_mean w xs = Ok ys -> length ys = length xs.
Proof.
  unfold rolling_mean. destruct (w <? 0); [discriminate|].
  intro H. injection H as <-. now rewrite length_map, length_seq.
Qed.

Lemma rolling_mean_defined (w : Z) (xs : list pyfloat) :
  0 <= w -> exists ys, rolling_mean w xs = Ok ys.
Proof.
  intro Hw. unfold rolling_mean.
  destruct (Z.ltb_spec w 0); [lia|]. eauto.
Qed.

Lemma zip_rows_length (bars : list Bar) :
  forall ss ls,
    length ss = length bars -> length ls = length bars ->
    length (zip_rows bars ss ls) = length bars.
Proof.
  induction bars as [|b bars IH]; intros [|s ss] [|l ls] Hs Hl;
    simpl in *; try discriminate; auto.
Qed.

Lemma add_sma_columns_length (data : list Bar) (sw lw : Z) (rows : list Row) :
  add_sma_columns data sw lw = Ok rows -> length rows = length data.
Proof.
  unfold add_sma_columns.
  destruct (rolling_mean sw (map close data)) as [ss|] eqn:Es; [|discriminate].
  destruct (rolling_mean lw (map close data)) as [ls|] eqn:El; [|discriminate].
  intro H. injection H as <-.
  apply rolling_mean_length in Es, El. rewrite length_map in Es, El.
  now apply zip_rows_length.
Qed.

Lemma add_sma_columns_defined (data : list Bar) (sw lw : Z) :
  0 <= sw -> 0 <= lw -> exists rows, add_sma_columns data sw lw = Ok rows.
Proof.
  intros Hs Hl. unfold add_sma_columns.
  destruct (rolling_mean_defined sw (map close data) Hs) as [ss ->].
  destruct (rolling_mean_defined lw (map close data) Hl) as [ls ->].
  eauto.
Qed.

End FrameFacts.

Lemma iloc_nil {A : Type} (i : Z) (x : A) : iloc [] i <> Ok x.
Proof.
  unfold iloc, len. simpl. intro H.
  destruct (Z.ltb_spec i 0).
  - destruct (Z.leb_spec 0 i); [lia|]. simpl in H. discriminate.
  - destruct (Z.leb_spec 0 i); simpl in H; [|discriminate].
    destruct (Z.ltb_spec i 0); [lia|discriminate].
Qed.

Lemma iloc_from_end {A : Type} (l : list A) (i : Z) :
  - len l <= i < 0 -> exists x, iloc l i = Ok x.
Proof.
  unfold iloc, len. intros [H1 H2].
  destruct (Z.ltb_spec i 0); [|lia].
  destruct (Z.leb_spec 0 (Z.of_nat (length l) + i)); [|lia].
  destruct (Z.ltb_spec (Z.of_nat (length l) + i) (Z.of_nat (length l))); [|lia].
  simpl.
  destruct (nth_error l (Z.to_nat (Z.of_nat (length l) + i))) eqn:E; [eauto|].
  apply nth_error_None in E. lia.
Qed.

Lemma iloc_ok_range {A : Type} (l : list A) (i : Z) (x : A) :
  iloc l i = Ok x -> - len l <= i < len l.
Proof.
  unfold iloc. intro H.
  destruct (Z.ltb_spec i 0).
  - destruct (Z.leb_spec 0 (len l + i)); simpl in H; [|discriminate].
    destruct (Z.ltb_spec (len l + i) (len l)); [lia|discriminate].
  - destruct (Z.leb_spec 0 i); simpl in H; [|discriminate].
    destruct (Z.ltb_spec i (len l)); [lia|discriminate].
Qed.

(** ** The signal strategies *)

Section StrategyFacts.

Context {arith : RollingArithmetic} {World : Type}.
Implicit Types (c : Config World) (data : list Bar) (rows : list Row).

(** Fetching bars never raises: every failure becomes the empty frame. *)
Lemma get_historical_data_total (sym tf : string) (limit : Z) c :
  exists data c', get_historical_data sym tf limit c = (Ok data, c').
Proof.
  unfold get_historical_data, try_except, bind, api_call, ret.
  destruct (get_bars (api (self c)) sym tf limit "raw" (world c))
    as [[[|b bs]|e] w'];
    eauto.
Qed.

(** The second definition, once the bars are known. *)
Lemma strategy_unfold (sym : string) (sw lw : Z) c data c' :
  get_historical_data sym "1D" 100 c = (Ok data, c') ->
  simple_moving_average_strategy sym sw lw c =
  if match data with [] => true | _ :: _ => false end || (len data <? lw)
  then (Ok hold, c')
  else
    match add_sma_columns data sw lw with
    | Raise e => (Raise e, c')
    | Ok rows =>
        match iloc rows (-1) with
        | Raise e => (Raise e, c')
        | Ok latest =>
            match iloc rows (-2) with
            | Raise e => (Raise e, c')
            | Ok previous => (Ok (crossover previous latest), c')
            end
        end
    end.
Proof.
  intro Hf. unfold simple_moving_average_strategy, bind. rewrite Hf.
  destruct (_ || _); [reflexivity|].
  unfold lift_result, ret.
  destruct (add_sma_columns data sw lw); [|reflexivity].
  destruct (iloc a (-1)); [|reflexivity].
  destruct (iloc a (-2)); reflexivity.
Qed.

(** The first definition, once the bars are known. *)
Lemma strategy_shadowed_unfold (sym : string) (sw lw : Z) c data c' :
  get_historical_data sym "1D" (lw + 10) c = (Ok data, c') ->
  simple_moving_average_strategy_shadowed sym sw lw c =
  match data with
  | [] => (Ok hold, c')
  | _ :: _ =>
      if len data <? lw then (Ok hold, c')
      else
        match add_sma_columns data sw lw with
        | Raise e => (Raise e, c')
        | Ok rows =>
            if len rows <? 2 then (Ok hold, c')
            else
              match iloc rows (-1) with
              | Raise e => (Raise e, c')
              | Ok latest =>
                  match iloc rows (-2) with
                  | Raise e => (Raise e, c')
                  | Ok previous =>
                      if isna (short_sma previous) || isna (long_sma previous)
                      then (Ok hold, c')
                      else (Ok (crossover previous latest), c')
                  end
              end
        end
  end.
Proof.
  intro Hf. unfold simple_moving_average_strategy_shadowed, bind. rewrite Hf.
  destruct data as [|b bs]; [reflexivity|].
  destruct (len (b :: bs) <? lw); [reflexivity|].
  unfold lift_result, ret.
  destruct (add_sma_columns (b :: bs) sw lw); [|reflexivity].
  destruct (len a <? 2); [reflexivity|].
  destruct (iloc a (-1)); [|reflexivity].
  destruct (iloc a (-2)); [|reflexivity].
  destruct (_ || _); reflexivity.
Qed.

(** With enough bars and both rows in place, the second definition
    answers with the crossover rule. *)
Lemma strategy_applies_crossover (sym : string) (sw lw : Z) c data c'
      rows previous latest :
  get_historical_data sym "1D" 100 c = (Ok data, c') ->
  lw <= len data ->
  add_sma_columns data sw lw = Ok rows ->
  iloc rows (-2) = Ok previous ->
  iloc rows (-1) = Ok latest ->
  simple_moving_average_strategy sym sw lw c =
  (Ok (crossover previous latest), c').
Proof.
  intros Hf Hlen Hrows Hp Hl.
  rewrite (strategy_unfold _ _ _ _ _ _ Hf).
  destruct data as [|b bs].
  - apply add_sma_columns_length in Hrows.
    destruct rows; [|discriminate]. now apply iloc_nil in Hl.
  - destruct (Z.ltb_spec (len (b :: bs)) lw); [lia|]. simpl.
    now rewrite Hrows, Hl, Hp.
Qed.

Lemma strategy_shadowed_applies_crossover (sym : string) (sw lw : Z) c data c'
      rows previous latest :
  get_historical_data sym "1D" (lw + 10) c = (Ok data, c') ->
  lw <= len data ->
  add_sma_columns data sw lw = Ok rows ->
  iloc rows (-2) = Ok previous ->
  iloc rows (-1) = Ok latest ->
  simple_moving_average_strategy_shadowed sym sw lw c =
  (Ok (if isna (short_sma previous) || isna (long_sma previous)
       then hold else crossover previous latest), c').
Proof.
  intros Hf Hlen Hrows Hp Hl.
  rewrite (strategy_shadowed_unfold _ _ _ _ _ _ Hf).
  destruct data as [|b bs].
  - apply add_sma_columns_length in Hrows.
    destruct rows; [|discriminate]. now apply iloc_nil in Hl.
  - destruct (Z.ltb_spec (len (b :: bs)) lw); [lia|].
    rewrite Hrows.
    destruct (Z.ltb_spec (len rows) 2) as [Hshort|_].
    + apply iloc_ok_range in Hp. lia.
    + rewrite Hl, Hp. now destruct (_ || _).
Qed.

(** The rule, read off the four averages of the two most recent rows. *)
Lemma strategy_decision (sym : string) (sw lw : Z) c data c'
      rows previous latest (ps pl ls ll : Q) :
  get_historical_data sym "1D" 100 c = (Ok data, c') ->
  lw <= len data ->
  add_sma_columns data sw lw = Ok rows ->
  iloc rows (-2) = Ok previous ->
  iloc rows (-1) = Ok latest ->
  short_sma previous = Fin ps -> long_sma previous = Fin pl ->
  short_sma latest = Fin ls -> long_sma latest = Fin ll ->
  (simple_moving_average_strategy sym sw lw c = (Ok buy, c')
   <-> (ps <= pl /\ ll < ls)%Q) /\
  (simple_moving_average_strategy sym sw lw c = (Ok sell, c')
   <-> (pl <= ps /\ ls < ll)%Q) /\
  (simple_moving_average_strategy sym sw lw c = (Ok hold, c')
   <-> ~ (ps <= pl /\ ll < ls)%Q /\ ~ (pl <= ps /\ ls < ll)%Q).
Proof.
  intros Hf Hlen Hrows Hp Hl Hps Hpl Hls Hll.
  rewrite (strategy_applies_crossover _ _ _ _ _ _ _ _ _ Hf Hlen Hrows Hp Hl).
  pose proof (crossover_buy_iff _ _ _ _ _ _ Hps Hpl Hls Hll) as Hb.
  pose proof (crossover_sell_iff _ _ _ _ _ _ Hps Hpl Hls Hll) as Hs.
  assert (Hinj : forall s, (Ok (crossover previous latest), c') = (Ok s, c')
                           <-> crossover previous latest = s).
  { intro s. split; intro H; [now injection H | now rewrite H]. }
  rewrite !Hinj. rewrite <- Hb, <- Hs.
  repeat split; auto;
    destruct (crossover previous latest); try discriminate; try tauto; auto.
Qed.

Lemma strategy_short_frame (sym : string) (sw lw : Z) c data c' :
  get_historical_data sym "1D" 100 c = (Ok data, c') ->
  data = [] \/ len data < lw ->
  simple_moving_average_strategy sym sw lw c = (Ok hold, c').
Proof.
  intros Hf Hshort. rewrite (strategy_unfold _ _ _ _ _ _ Hf).
  destruct Hshort as [-> | Hlt]; [reflexivity|].
  destruct (Z.ltb_spec (len data) lw); [|lia].
  now rewrite orb_true_r.
Qed.

(** C3: a frame with fewer than [long_window] bars, the empty frame
    included, makes the strategy answer [hold]. *)
Theorem strategy_holds_on_short_series (sym : string) (sw lw : Z) c data c' :
  get_historical_data sym "1D" 100 c = (Ok data, c') ->
  data = [] \/ len data < lw ->
  simple_moving_average_strategy sym sw lw c = (Ok hold, c').
Proof.
  intros Hf Hshort. now apply strategy_short_frame with (data := data).
Qed.

(** C2: with at least [long_window] bars, a missing short or long average
    on the second-to-last row makes the strategy answer [hold]; this holds
    for the definition in force and for the shadowed one. *)
Theorem strategy_holds_on_missing_previous (sym : string) (sw lw : Z) c data
        rows previous :
  lw <= len data ->
  add_sma_columns data sw lw = Ok rows ->
  iloc rows (-2) = Ok previous ->
  short_sma previous = NaN \/ long_sma previous = NaN ->
  (forall c', get_historical_data sym "1D" 100 c = (Ok data, c') ->
              simple_moving_average_strategy sym sw lw c = (Ok hold, c')) /\
  (forall c', get_historical_data sym "1D" (lw + 10) c = (Ok data, c') ->
              simple_moving_average_strategy_shadowed sym sw lw c = (Ok hold, c')).
Proof.
  intros Hlen Hrows Hp Hna.
  assert (Hmiss : isna (short_sma previous) || isna (long_sma previous) = true).
  { destruct Hna as [-> | ->]; simpl; [reflexivity | apply orb_true_r]. }
  destruct (iloc_from_end rows (-1)) as [latest Hl].
  { apply iloc_ok_range in Hp. lia. }
  split; intros c' Hf.
  - rewrite (strategy_applies_crossover _ _ _ _ _ _ _ _ _ Hf Hlen Hrows Hp Hl).
    now rewrite crossover_previous_missing.
  - rewrite (strategy_shadowed_applies_crossover _ _ _ _ _ _ _ _ _ Hf Hlen Hrows Hp Hl).
    now rewrite Hmiss.
Qed.

(** C10, amended: when the request for [long_window + 10] bars and the
    request for 100 bars are answered with the same frame, and
    [0 < short_window < long_window], the shadowed definition and the
    definition in force return the same signal. *)
Theorem strategies_agree_on_same_bars (sym : string) (sw lw : Z) c data c1 c2 :
  0 < sw -> sw < lw ->
  get_historical_data sym "1D" (lw + 10) c = (Ok data, c1) ->
  get_historical_data sym "1D" 100 c = (Ok data, c2) ->
  exists s : Signal,
    simple_moving_average_strategy_shadowed sym sw lw c = (Ok s, c1) /\
    simple_moving_average_strategy sym sw lw c = (Ok s, c2).
Proof.
  intros Hsw Hlw Hf1 Hf2.
  destruct (Z.lt_ge_cases (len data) lw) as [Hshort | Hlong].
  - exists hold. split.
    + rewrite (strategy_shadowed_unfold _ _ _ _ _ _ Hf1).
      destruct data; [reflexivity|].
      now destruct (Z.ltb_spec (len (b :: data)) lw); [|lia].
    + apply (strategy_short_frame _ _ _ _ _ _ Hf2). now right.
  - destruct (add_sma_columns_defined data sw lw) as [rows Hrows]; [lia..|].
    pose proof (add_sma_columns_length _ _ _ _ Hrows) as Hn.
    assert (Hlen2 : 2 <= len rows) by (unfold len in *; lia).
    destruct (iloc_from_end rows (-2)) as [previous Hp]; [lia|].
    destruct (iloc_from_end rows (-1)) as [latest Hl]; [lia|].
    rewrite (strategy_shadowed_applies_crossover _ _ _ _ _ _ _ _ _ Hf1 Hlong Hrows Hp Hl).
    rewrite (strategy_applies_crossover _ _ _ _ _ _ _ _ _ Hf2 Hlong Hrows Hp Hl).
    destruct (isna (short_sma previous) || isna (long_sma previous)) eqn:E.
    + exists hold. now rewrite crossover_previous_missing.
    + eauto.
Qed.

End StrategyFacts.

(** ** Accessors and order execution *)

Lemma str_in_buy_sell (s : string) :
  str_in s ["buy"%string; "sell"%string] = true
  <-> s = "buy"%string \/ s = "sell"%string.
Proof.
  unfold str_in. simpl. rewrite orb_false_r, orb_true_iff, !String.eqb_eq.
  reflexivity.
Qed.

Section AccessFacts.

Context {World : Type}.
Variable py_float : string -> result pyfloat.
Implicit Types (c : Config World) (sym : string).

Lemma check_market_hours_answer c (r : result Clock) (w' : World) :
  get_clock (api (self c)) (world c) = (r, w') ->
  check_market_hours c =
  (Ok match r with Ok clock => is_open clock | Raise _ => false end,
   called c EvGetClock w').
Proof.
  intro H. unfold check_market_hours, try_except, bind, api_call, ret, called.
  rewrite H. now destruct r.
Qed.

Lemma check_market_hours_total c :
  exists b c', check_market_hours c = (Ok b, c').
Proof.
  destruct (get_clock (api (self c)) (world c)) as [r w'] eqn:E.
  rewrite (check_market_hours_answer _ _ _ E). eauto.
Qed.

Lemma get_position_total sym c :
  exists r c', get_position py_float sym c = (Ok r, c').
Proof.
  unfold get_position, try_except, bind, api_call, lift_result, ret.
  destruct (sdk_get_position (api (self c)) sym (world c)) as [[p|e] w'];
    [|eauto].
  destruct (py_float (qty p)); [|eauto].
  destruct (py_float (market_value p)); [|eauto].
  destruct (py_float (avg_entry_price p)); eauto.
Qed.

Lemma get_position_failure sym c (e : exn) (w' : World) :
  sdk_get_position (api (self c)) sym (world c) = (Raise e, w') ->
  get_position py_float sym c = (Ok None, called c (EvGetPosition sym) w').
Proof.
  intro H. unfold get_position, try_except, bind, api_call, ret, called.
  now rewrite H.
Qed.

Lemma is_symbol_tradeable_answer sym c (r : result Asset) (w' : World) :
  get_asset (api (self c)) sym (world c) = (r, w') ->
  is_symbol_tradeable sym c =
  (Ok match r with
      | Ok asset => tradable asset && String.eqb (status asset) "active"
      | Raise _ => false
      end,
   called c (EvGetAsset sym) w').
Proof.
  intro H. unfold is_symbol_tradeable, try_except, bind, api_call, ret, called.
  rewrite H. now destruct r.
Qed.

(** C6: the read-only accessors never raise.  [get_position] answers
    [None] when the position lookup fails, [check_market_hours] answers
    [False] when the clock query fails, and [is_symbol_tradeable] answers
    [False] when the asset lookup fails and [True] exactly when the asset
    is tradable with status "active". *)
Theorem read_accessors_degrade sym c :
  (exists r c', get_position py_float sym c = (Ok r, c')) /\
  (forall e w',
      sdk_get_position (api (self c)) sym (world c) = (Raise e, w') ->
      get_position py_float sym c = (Ok None, called c (EvGetPosition sym) w')) /\
  (exists b c', check_market_hours c = (Ok b, c')) /\
  (forall e w',
      get_clock (api (self c)) (world c) = (Raise e, w') ->
      check_market_hours c = (Ok false, called c EvGetClock w')) /\
  (exists b c', is_symbol_tradeable sym c = (Ok b, c')) /\
  (forall e w',
      get_asset (api (self c)) sym (world c) = (Raise e, w') ->
      is_symbol_tradeable sym c = (Ok false, called c (EvGetAsset sym) w')) /\
  (fst (is_symbol_tradeable sym c) = Ok true <->
   exists asset,
     fst (get_asset (api (self c)) sym (world c)) = Ok asset /\
     tradable asset = true /\ status asset = "active"%string).
Proof.
  split; [apply get_position_total|].
  split; [intros e w'; apply get_position_failure|].
  split; [apply check_market_hours_total|].
  split; [intros e w' H; now rewrite (check_market_hours_answer _ _ _ H)|].
  destruct (get_asset (api (self c)) sym (world c)) as [r w'] eqn:E.
  rewrite (is_symbol_tradeable_answer _ _ _ _ E).
  split; [eauto|].
  split; [intros e w0 H; now injection H as -> ->|].
  simpl. destruct r as [asset|e].
  - split.
    + intro H. injection H as H. apply andb_true_iff in H as [Ht Hs].
      apply String.eqb_eq in Hs. eauto.
    + intros [a [Ha [Ht Hs]]]. injection Ha as <-.
      rewrite Ht, Hs. reflexivity.
  - split; [discriminate|]. intros [a [Ha _]]. discriminate.
Qed.

(** C5: [execute_trade] never raises.  A side that is neither "buy" nor
    "sell" once lowered yields no order and leaves the configuration as it
    was, so nothing was submitted; with a valid side, a failure of the
    submission yields no order. *)
Theorem execute_trade_contains_failures sym (q : Z)
        (side type time_in_force : string) c :
  (exists r c', execute_trade sym q side type time_in_force c = (Ok r, c')) /\
  (lower side <> "buy"%string -> lower side <> "sell"%string ->
   execute_trade sym q side type time_in_force c = (Ok None, c)) /\
  (lower side = "buy"%string \/ lower side = "sell"%string ->
   forall e w',
     submit_order (api (self c))
                  (mkOrderRequest sym q side type time_in_force) (world c)
     = (Raise e, w') ->
     execute_trade sym q side type time_in_force c =
     (Ok None,
      called c (EvSubmitOrder (mkOrderRequest sym q side type time_in_force)) w')).
Proof.
  unfold execute_trade, try_except, bind, api_call, raise, ret, called.
  destruct (str_in (lower side) ["buy"%string; "sell"%string]) eqn:E; simpl.
  - apply str_in_buy_sell in E.
    split; [|split].
    + destruct (submit_order _ _ _) as [[o|e] w']; eauto.
    + intros H1 H2. destruct E; contradiction.
    + intros _ e w' H. now rewrite H.
  - split; [eauto|]. split; [reflexivity|].
    intro H. apply str_in_buy_sell in H. congruence.
Qed.

(** [get_account_info] has no handler: a failed fetch is raised to the
    caller, and the stored snapshot is left as it was. *)
Lemma get_account_info_propagates c (e : exn) (w' : World) :
  get_account (api (self c)) (world c) = (Raise e, w') ->
  get_account_info py_float c = (Raise e, called c EvGetAccount w').
Proof.
  intro H. unfold get_account_info, bind, api_call, called. now rewrite H.
Qed.

End AccessFacts.

(** ** The bot loop *)

Lemma streak_from_snoc (acc : nat) (h : list outcome) (o : outcome) :
  streak_from acc (h ++ [o]) =
  match o with
  | Succeeded => 0%nat
  | Failed => S (streak_from acc h)
  | Closed => streak_from acc h
  end.
Proof.
  revert acc. induction h as [|x h IH]; intro acc; simpl.
  - now destruct o.
  - destruct x; apply IH.
Qed.

Section LoopFacts.

Context {World : Type}.
Variable trading_logic :
  string -> TradingBot World * World -> result unit * (TradingBot World * World).
Implicit Types (c : Config World) (sym : string) (rc : nat) (h : list outcome).

Local Abbreviation iteration := (run_bot_iteration trading_logic).
Local Abbreviation outcome_at := (iteration_outcome trading_logic).

Lemma iteration_break sym rc c :
  (max_retries <= rc)%nat -> iteration sym rc c = (Ok Break, c).
Proof.
  intro H. unfold run_bot_iteration, try_except, ret.
  now destruct (Nat.leb_spec max_retries rc); [|lia].
Qed.

(** A pass that gets beyond the retry check goes round again, with the
    counter its outcome dictates. *)
Lemma iteration_next sym rc c :
  (rc < max_retries)%nat ->
  exists c', iteration sym rc c = (Ok (Next (counter_after (outcome_at sym c) rc)), c').
Proof.
  intro H. unfold run_bot_iteration, iteration_outcome, try_except, bind.
  destruct (Nat.leb_spec max_retries rc); [lia|].
  destruct (check_market_hours_total c) as [b [c1 Hc]]. rewrite Hc.
  destruct b; simpl.
  - destruct (run_logic trading_logic sym c1) as [[u|e] c2]; simpl.
    + eauto.
    + rewrite Nat.add_1_r. unfold ret. eauto.
  - eauto.
Qed.

Lemma iteration_inv sym rc c (ctl : result loop_ctl) c' :
  iteration sym rc c = (ctl, c') ->
  (ctl = Ok Break /\ c' = c /\ (max_retries <= rc)%nat) \/
  (ctl = Ok (Next (counter_after (outcome_at sym c) rc)) /\ (rc < max_retries)%nat).
Proof.
  intro H. destruct (Nat.le_gt_cases max_retries rc) as [Hge | Hlt].
  - rewrite (iteration_break _ _ _ Hge) in H. injection H as <- <-. auto.
  - destruct (iteration_next sym rc c Hlt) as [c1 Hn].
    rewrite Hn in H. injection H as <- <-. auto.
Qed.

(** At every loop head the counter is the number of consecutive failures. *)
Lemma loop_head_counter sym c0 h rc c :
  loop_head trading_logic sym c0 h rc c ->
  rc = consecutive_failures h /\ (rc <= max_retries)%nat.
Proof.
  unfold consecutive_failures.
  induction 1 as [|h rc c rc' c' Hhead [IH1 IH2] Hstep].
  - simpl. unfold max_retries. lia.
  - apply iteration_inv in Hstep as [[Hb _] | [Hn Hlt]]; [discriminate|].
    injection Hn as ->. rewrite streak_from_snoc, <- IH1.
    destruct (outcome_at sym c); simpl; lia.
Qed.

(** Reaching a loop head costs as many passes as its history is long. *)
Lemma loop_head_run sym c0 h rc c :
  loop_head trading_logic sym c0 h rc c ->
  forall n, run_bot_loop trading_logic (length h + n) sym 0 c0 =
            run_bot_loop trading_logic n sym rc c.
Proof.
  induction 1 as [|h rc c rc' c' Hhead IH Hstep]; intro n; [reflexivity|].
  rewrite length_app. simpl length.
  replace (length h + 1 + n)%nat with (length h + S n)%nat by lia.
  rewrite IH. simpl. unfold bind at 1. now rewrite Hstep.
Qed.

Lemma run_returns_at_head sym c0 fuel :
  forall h rc c cf,
    loop_head trading_logic sym c0 h rc c ->
    run_bot_loop trading_logic fuel sym rc c = (Ok Returned, cf) ->
    exists h', (length h' < length h + fuel)%nat /\
               loop_head trading_logic sym c0 h' max_retries cf.
Proof.
  induction fuel as [|fuel IH]; intros h rc c cf Hhead Hrun; [discriminate|].
  simpl in Hrun. unfold bind at 1 in Hrun.
  destruct (iteration sym rc c) as [ctl c1] eqn:Hstep.
  destruct (iteration_inv _ _ _ _ _ Hstep) as [[-> [-> Hge]] | [-> Hlt]].
  - injection Hrun as <-. exists h. split; [lia|].
    destruct (loop_head_counter _ _ _ _ _ Hhead) as [_ Hle].
    now replace max_retries with rc by lia.
  - destruct (IH _ _ _ _ (head_next _ _ _ _ _ _ _ _ _ Hhead Hstep) Hrun)
      as [h' [Hlen Hh']].
    exists h'. split; [|assumption].
    rewrite length_app in Hlen. simpl in Hlen. lia.
Qed.

(** C7: at every loop head the retry counter equals the number of failed
    iterations since the last successful one; a successful pass resets it
    to zero, a failed pass adds one, a closed-market pass keeps it; the
    loop breaks at a head exactly when that number equals [max_retries],
    and [run_bot] returns there and nowhere else. *)
Theorem retry_counter_discipline sym (strategy : string) (trade_amount : Z)
        (risk_per_trade : Q) (c0 : Config World) :
  (forall h rc c,
      loop_head trading_logic sym c0 h rc c ->
      rc = consecutive_failures h /\
      (forall rc' c',
          iteration sym rc c = (Ok (Next rc'), c') ->
          rc' = match outcome_at sym c with
                | Succeeded => 0%nat
                | Failed => (rc + 1)%nat
                | Closed => rc
                end) /\
      (iteration sym rc c = (Ok Break, c)
       <-> consecutive_failures h = max_retries) /\
      (consecutive_failures h = max_retries ->
       forall fuel, (length h < fuel)%nat ->
                    run_bot trading_logic fuel sym strategy trade_amount
                            risk_per_trade c0 = (Ok Returned, c))) /\
  (forall fuel cf,
      run_bot trading_logic fuel sym strategy trade_amount risk_per_trade c0
      = (Ok Returned, cf) ->
      exists h, (length h < fuel)%nat /\
                loop_head trading_logic sym c0 h max_retries cf /\
                consecutive_failures h = max_retries).
Proof.
  split.
  - intros h rc c Hhead.
    destruct (loop_head_counter _ _ _ _ _ Hhead) as [Hrc Hle].
    split; [assumption|]. split; [|split].
    + intros rc' c' Hstep.
      apply iteration_inv in Hstep as [[Hb _] | [Hn _]]; [discriminate|].
      injection Hn as ->. rewrite Nat.add_1_r. reflexivity.
    + rewrite <- Hrc. split.
      * intro Hb. apply iteration_inv in Hb as [[_ [_ Hge]] | [Hn _]];
          [lia | discriminate].
      * intro Heq. apply iteration_break. lia.
    + intros Hmax fuel Hfuel. unfold run_bot.
      replace fuel with (length h + S (fuel - length h - 1))%nat by lia.
      rewrite (loop_head_run _ _ _ _ _ Hhead). simpl. unfold bind.
      rewrite iteration_break by lia. reflexivity.
  - intros fuel cf Hrun. unfold run_bot in Hrun.
    destruct (run_returns_at_head sym c0 fuel [] 0%nat c0 cf
                                  (head_start _ _ _ _) Hrun)
      as [h [Hlen Hhead]].
    exists h. split; [simpl in Hlen; lia|]. split; [assumption|].
    now destruct (loop_head_counter _ _ _ _ _ Hhead) as [<- _].
Qed.

(** C8: in a pass that finds the market closed, or whose clock query
    fails, the loop sleeps 300 seconds and goes round again with the same
    retry counter; the bot object is untouched and the only events are the
    clock query and the sleep. *)
Theorem market_closed_pass sym rc c (r : result Clock) (w' : World) :
  (rc < max_retries)%nat ->
  get_clock (api (self c)) (world c) = (r, w') ->
  match r with Ok clock => is_open clock = false | Raise _ => True end ->
  iteration sym rc c =
  (Ok (Next rc), mkConfig (self c) w' (events c ++ [EvGetClock; EvSleep 300])).
Proof.
  intros Hlt Hclock Hclosed.
  unfold run_bot_iteration, try_except, bind at 1.
  destruct (Nat.leb_spec max_retries rc); [lia|].
  rewrite (check_market_hours_answer _ _ _ Hclock).
  assert (Hb : match r with Ok clock => is_open clock | Raise _ => false end = false).
  { destruct r; auto. }
  rewrite Hb. simpl. unfold bind, sleep, ret, called. simpl.
  now rewrite <- app_assoc.
Qed.

End LoopFacts.

(** With the loop body as the source has it, no pass can fail: the counter
    stays at zero and the loop never returns. *)
Remark run_bot_loops_forever_without_logic {World : Type} (fuel : nat)
       (sym : string) (c : Config World) :
  exists c', run_bot_loop no_trading_logic fuel sym 0 c = (Ok OutOfFuel, c').
Proof.
  revert c. induction fuel as [|fuel IH]; intro c; simpl; [unfold ret; eauto|].
  unfold bind at 1.
  destruct (run_bot_iteration no_trading_logic sym 0 c) as [ctl c1] eqn:Hstep.
  apply iteration_inv in Hstep as [[_ [_ Hge]] | [-> _]].
  - unfold max_retries in Hge. lia.
  - replace (counter_after (iteration_outcome no_trading_logic sym c) 0) with 0%nat.
    + apply IH.
    + unfold iteration_outcome, run_logic, no_trading_logic.
      destruct (check_market_hours c) as [[[|]|] c2]; reflexivity.
Qed.

(** ** Construction *)

Section InitFacts.

Context {World : Type}.
Variable tradeapi_REST : string -> string -> string -> result (REST World).
Variable trading_logic :
  string -> TradingBot World * World -> result unit * (TradingBot World * World).

(** C9, amended: once the SDK handle exists, construction first probes the
    clock.  A failed probe is raised to the caller after that single call,
    and the script then never enters the loop.  After a successful probe
    the account is fetched: construction completes when that fetch
    succeeds and raises its failure otherwise. *)
Theorem init_fails_fast (api_key api_secret base_url : string) (w : World)
        (rest : REST World) :
  tradeapi_REST api_key api_secret base_url = Ok rest ->
  (forall e w1,
      get_clock rest w = (Raise e, w1) ->
      init tradeapi_REST api_key api_secret base_url w
      = (Raise e, w1, [EvGetClock]) /\
      (base_url = default_base_url ->
       forall fuel,
         main tradeapi_REST trading_logic fuel api_key api_secret w
         = (Raise e, w1, [EvGetClock]))) /\
  (forall clock w1 acct w2,
      get_clock rest w = (Ok clock, w1) ->
      get_account rest w1 = (Ok acct, w2) ->
      init tradeapi_REST api_key api_secret base_url w
      = (Ok (mkTradingBot rest acct), w2, [EvGetClock; EvGetAccount])) /\
  (forall clock w1 e w2,
      get_clock rest w = (Ok clock, w1) ->
      get_account rest w1 = (Raise e, w2) ->
      init tradeapi_REST api_key api_secret base_url w
      = (Raise e, w2, [EvGetClock; EvGetAccount])).
Proof.
  intro Hrest. split; [|split].
  - intros e w1 Hclock. split.
    + unfold init. now rewrite Hrest, Hclock.
    + intros -> fuel. unfold main, init. now rewrite Hrest, Hclock.
  - intros clock w1 acct w2 Hclock Hacct.
    unfold init. now rewrite Hrest, Hclock, Hacct.
  - intros clock w1 e w2 Hclock Hacct.
    unfold init. now rewrite Hrest, Hclock, Hacct.
Qed.

End InitFacts.

(** * Further properties of the accessors and of order execution *)

Section MoreAccessFacts.

Context {arith : RollingArithmetic} {World : Type}.
Variable py_float : string -> result pyfloat.
Implicit Types (c : Config World) (sym : string).

Lemma get_historical_data_answer sym (tf : string) (limit : Z) c
      (r : result (list Bar)) (w' : World) :
  get_bars (api (self c)) sym tf limit "raw" (world c) = (r, w') ->
  get_historical_data sym tf limit c =
  (Ok match r with Ok bars => bars | Raise _ => [] end,
   called c (EvGetBars sym tf limit "raw") w').
Proof.
  intro H. unfold get_historical_data, try_except, bind, api_call, ret, called.
  rewrite H. destruct r as [[|b bs]|e]; reflexivity.
Qed.

(** A failed or empty bar request makes both strategies answer [hold]: the
    failure is not raised, and the only trace is the single request, for
    100 bars by the definition in force and for [long_window + 10] bars by
    the shadowed one. *)
Theorem strategies_hold_when_bars_unavailable sym (sw lw : Z) c :
  (forall (r : result (list Bar)) (w' : World),
      get_bars (api (self c)) sym "1D" 100 "raw" (world c) = (r, w') ->
      match r with Ok bars => bars = [] | Raise _ => True end ->
      simple_moving_average_strategy sym sw lw c =
      (Ok hold, called c (EvGetBars sym "1D" 100 "raw") w')) /\
  (forall (r : result (list Bar)) (w' : World),
      get_bars (api (self c)) sym "1D" (lw + 10) "raw" (world c) = (r, w') ->
      match r with Ok bars => bars = [] | Raise _ => True end ->
      simple_moving_average_strategy_shadowed sym sw lw c =
      (Ok hold, called c (EvGetBars sym "1D" (lw + 10) "raw") w')).
Proof.
  split; intros r w' Hbars Hr.
  - apply (strategy_short_frame _ _ _ _ []); [|now left].
    rewrite (get_historical_data_answer _ _ _ _ _ _ Hbars).
    destruct r as [bars|e]; [now rewrite Hr | reflexivity].
  - rewrite (strategy_shadowed_unfold
               sym sw lw c [] (called c (EvGetBars sym "1D" (lw + 10) "raw") w'));
      [reflexivity|].
    rewrite (get_historical_data_answer _ _ _ _ _ _ Hbars).
    destruct r as [bars|e]; [now rewrite Hr | reflexivity].
Qed.

(** Once [get_account] has answered, [get_account_info] has replaced
    [self.account] by the fetched snapshot, whatever it answers then.  It
    converts the four fields in order: it raises the exception of the first
    conversion that fails, and answers the four converted values when none
    does; so it raises exactly when some conversion does. *)
Theorem get_account_info_stores_snapshot c (acct : Account) (w' : World) :
  get_account (api (self c)) (world c) = (Ok acct, w') ->
  snd (get_account_info py_float c)
  = mkConfig (mkTradingBot (api (self c)) acct) w' (events c ++ [EvGetAccount]) /\
  fst (get_account_info py_float c)
  = match py_float (buying_power acct) with
    | Raise e => Raise e
    | Ok bp =>
        match py_float (cash acct) with
        | Raise e => Raise e
        | Ok ca =>
            match py_float (portfolio_value acct) with
            | Raise e => Raise e
            | Ok pv =>
                match py_float (equity acct) with
                | Raise e => Raise e
                | Ok eq => Ok (mkAccountInfo bp ca pv eq)
                end
            end
        end
    end /\
  ((exists e, fst (get_account_info py_float c) = Raise e) <->
   exists e,
     py_float (buying_power acct) = Raise e \/
     py_float (cash acct) = Raise e \/
     py_float (portfolio_value acct) = Raise e \/
     py_float (equity acct) = Raise e).
Proof.
  intro H.
  assert (Hrun : get_account_info py_float c =
                 (match py_float (buying_power acct) with
                  | Raise e => Raise e
                  | Ok bp =>
                      match py_float (cash acct) with
                      | Raise e => Raise e
                      | Ok ca =>
                          match py_float (portfolio_value acct) with
                          | Raise e => Raise e
                          | Ok pv =>
                              match py_float (equity acct) with
                              | Raise e => Raise e
                              | Ok eq => Ok (mkAccountInfo bp ca pv eq)
                              end
                          end
                      end
                  end,
                  mkConfig (mkTradingBot (api (self c)) acct) w'
                           (events c ++ [EvGetAccount]))).
  { unfold get_account_info, bind, api_call, set_account, lift_result, ret.
    rewrite H. simpl.
    destruct (py_float (buying_power acct)); [|reflexivity].
    destruct (py_float (cash acct)); [|reflexivity].
    destruct (py_float (portfolio_value acct)); [|reflexivity].
    destruct (py_float (equity acct)); reflexivity. }
  rewrite Hrun. simpl. split; [reflexivity|]. split; [reflexivity|].
  destruct (py_float (buying_power acct)) as [bp|e1].
  - destruct (py_float (cash acct)) as [ca|e2].
    + destruct (py_float (portfolio_value acct)) as [pv|e3].
      * destruct (py_float (equity acct)) as [eq|e4].
        -- split; intros [e He]; [discriminate|].
           destruct He as [He | [He | [He | He]]]; discriminate.
        -- split; intros _; exists e4; auto.
      * split; intros _; exists e3; auto.
    + split; intros _; exists e2; auto.
  - split; intros _; exists e1; auto.
Qed.

(** [get_position] answers a position exactly when the lookup and the three
    conversions succeed, and then with the converted fields; it makes one
    lookup and leaves the bot object alone. *)
Theorem get_position_some_iff sym c (info : PositionInfo) :
  (fst (get_position py_float sym c) = Ok (Some info) <->
   exists p,
     fst (sdk_get_position (api (self c)) sym (world c)) = Ok p /\
     info_symbol info = symbol p /\
     py_float (qty p) = Ok (info_qty info) /\
     py_float (market_value p) = Ok (info_market_value info) /\
     py_float (avg_entry_price p) = Ok (info_avg_entry_price info)) /\
  snd (get_position py_float sym c)
  = called c (EvGetPosition sym)
           (snd (sdk_get_position (api (self c)) sym (world c))).
Proof.
  unfold get_position, try_except, bind, api_call, lift_result, ret, called.
  destruct (sdk_get_position (api (self c)) sym (world c)) as [[p|e] w']; simpl.
  - destruct (py_float (qty p)) as [q|e1] eqn:E1; simpl.
    + destruct (py_float (market_value p)) as [mv|e2] eqn:E2; simpl.
      * destruct (py_float (avg_entry_price p)) as [ep|e3] eqn:E3; simpl.
        -- split; [|reflexivity]. split.
           ++ intro H. injection H as <-. exists p. simpl. auto.
           ++ intros [p' [Hp [Hs [Hq [Hm He]]]]]. injection Hp as <-.
              destruct info; simpl in *. congruence.
        -- split; [|reflexivity]. split; [discriminate|].
           intros [p' [Hp [_ [_ [_ He]]]]]. injection Hp as <-. congruence.
      * split; [|reflexivity]. split; [discriminate|].
        intros [p' [Hp [_ [_ [Hm _]]]]]. injection Hp as <-. congruence.
    + split; [|reflexivity]. split; [discriminate|].
      intros [p' [Hp [_ [Hq _]]]]. injection Hp as <-. congruence.
  - split; [|reflexivity]. split; [discriminate|].
    intros [p' [Hp _]]. discriminate.
Qed.

(** [execute_trade] answers an order exactly when the side is a case variant
    of "buy" or "sell" and the submission succeeds.  With such a side there
    is exactly one submission, and the request carries the side as the
    caller wrote it, not its lower-case form. *)
Theorem execute_trade_submits_once sym (q : Z) (side type time_in_force : string)
        c (o : Order) :
  let req := mkOrderRequest sym q side type time_in_force in
  (fst (execute_trade sym q side type time_in_force c) = Ok (Some o) <->
   (lower side = "buy"%string \/ lower side = "sell"%string) /\
   fst (submit_order (api (self c)) req (world c)) = Ok o) /\
  (lower side = "buy"%string \/ lower side = "sell"%string ->
   snd (execute_trade sym q side type time_in_force c)
   = called c (EvSubmitOrder req) (snd (submit_order (api (self c)) req (world c)))).
Proof.
  intro req. subst req.
  unfold execute_trade, try_except, bind, api_call, raise, ret, called.
  destruct (str_in (lower side) ["buy"%string; "sell"%string]) eqn:E; simpl.
  - apply str_in_buy_sell in E.
    destruct (submit_order _ _ _) as [[o'|e] w']; simpl.
    + split; [|reflexivity]. split.
      * intro H. injection H as <-. auto.
      * intros [_ H]. now injection H as <-.
    + split; [|reflexivity]. split; [discriminate|]. intros [_ H]. discriminate.
  - assert (Hn : ~ (lower side = "buy"%string \/ lower side = "sell"%string)).
    { intro H. apply str_in_buy_sell in H. congruence. }
    split; [|intro H; contradiction].
    split; [discriminate|]. intros [H _]. contradiction.
Qed.

End MoreAccessFacts.

(** * Further properties of the signal strategies *)

Section RowFacts.

Context {arith : RollingArithmetic}.

Lemma rolling_mean_nth (w : Z) (xs ys : list pyfloat) (i : nat) :
  rolling_mean w xs = Ok ys ->
  (i < length xs)%nat ->
  nth_error ys i = Some (rolling_at (Z.to_nat w) xs i).
Proof.
  unfold rolling_mean. destruct (w <? 0); [discriminate|].
  intros H Hi. injection H as <-.
  rewrite nth_error_map, nth_error_seq.
  now destruct (Nat.ltb_spec i (length xs)); [|lia].
Qed.

Lemma zip_rows_nth (bars : list Bar) :
  forall (ss ls : list pyfloat) (i : nat) (b : Bar) (s l : pyfloat),
    nth_error bars i = Some b ->
    nth_error ss i = Some s ->
    nth_error ls i = Some l ->
    nth_error (zip_rows bars ss ls) i = Some (mkRow b s l).
Proof.
  induction bars as [|b0 bars IH]; intros ss ls i b s l Hb Hs Hl.
  - destruct i; discriminate.
  - destruct ss as [|s0 ss]; [destruct i; discriminate|].
    destruct ls as [|l0 ls]; [destruct i; discriminate|].
    destruct i as [|i]; simpl in *.
    + congruence.
    + now apply IH.
Qed.

Lemma add_sma_columns_nth (data : list Bar) (sw lw : Z) (rows : list Row)
      (i : nat) (b : Bar) :
  add_sma_columns data sw lw = Ok rows ->
  nth_error data i = Some b ->
  nth_error rows i =
  Some (mkRow b (rolling_at (Z.to_nat sw) (map close data) i)
              (rolling_at (Z.to_nat lw) (map close data) i)).
Proof.
  unfold add_sma_columns. intros Hrows Hb.
  assert (Hi : (i < length (map close data))%nat).
  { rewrite length_map. apply nth_error_Some. congruence. }
  destruct (rolling_mean sw (map close data)) as [ss|] eqn:Es; [|discriminate].
  destruct (rolling_mean lw (map close data)) as [ls|] eqn:El; [|discriminate].
  injection Hrows as <-.
  apply zip_rows_nth; [assumption|now apply rolling_mean_nth..].
Qed.

End RowFacts.

Lemma iloc_from_end_nth {A : Type} (l : list A) (n : nat) :
  (0 < n <= length l)%nat ->
  iloc l (- Z.of_nat n) =
  match nth_error l (length l - n) with
  | Some x => Ok x
  | None => Raise (IndexError "single positional indexer is out-of-bounds")
  end.
Proof.
  intro H. unfold iloc, len.
  destruct (Z.ltb_spec (- Z.of_nat n) 0); [|lia].
  destruct (Z.leb_spec 0 (Z.of_nat (length l) + - Z.of_nat n)); [|lia].
  destruct (Z.ltb_spec (Z.of_nat (length l) + - Z.of_nat n) (Z.of_nat (length l)));
    [|lia].
  simpl.
  now replace (Z.to_nat (Z.of_nat (length l) + - Z.of_nat n))
    with (length l - n)%nat by lia.
Qed.

Section StrategyReach.

Context {arith : RollingArithmetic} {World : Type}.
Implicit Types (c : Config World) (data : list Bar) (rows : list Row).

(** With non-negative windows, the definition in force raises exactly on a
    one-bar frame with [long_window <= 1], where there is no second-to-last
    row; the shadowed definition never raises. *)
Theorem strategy_raises_iff_single_bar (sym : string) (sw lw : Z) c data c' :
  0 <= sw -> 0 <= lw ->
  get_historical_data sym "1D" 100 c = (Ok data, c') ->
  ((exists e, fst (simple_moving_average_strategy sym sw lw c) = Raise e)
   <-> len data = 1 /\ lw <= 1) /\
  (exists s c2, simple_moving_average_strategy_shadowed sym sw lw c = (Ok s, c2)).
Proof.
  intros Hsw Hlw Hf. split.
  - rewrite (strategy_unfold _ _ _ _ _ _ Hf).
    destruct (add_sma_columns_defined data sw lw) as [rows Hrows]; [lia..|].
    pose proof (add_sma_columns_length _ _ _ _ Hrows) as Hn.
    rewrite Hrows.
    destruct data as [|b bs].
    { simpl. split; [intros [e He]; discriminate | unfold len; simpl; lia]. }
    destruct (Z.ltb_spec (len (b :: bs)) lw) as [Hshort | Hlong]; simpl.
    { split; [intros [e He]; discriminate | lia]. }
    destruct (iloc_from_end rows (-1)) as [latest Hl];
      [unfold len in *; simpl in *; lia|].
    rewrite Hl.
    destruct (iloc rows (-2)) as [previous|e] eqn:Hp; simpl.
    + apply iloc_ok_range in Hp.
      split; [intros [e He]; discriminate | unfold len in *; simpl in *; lia].
    + split; [intros _ | eauto].
      destruct (Z.le_gt_cases 2 (len rows)) as [H2 | H2].
      * destruct (iloc_from_end rows (-2)) as [x Hx]; [lia|]. congruence.
      * unfold len in *; simpl in *; lia.
  - destruct (get_historical_data_total sym "1D" (lw + 10) c) as [d2 [c2 Hf2]].
    rewrite (strategy_shadowed_unfold _ _ _ _ _ _ Hf2).
    destruct d2 as [|b bs]; [eauto|].
    destruct (len (b :: bs) <? lw); [eauto|].
    destruct (add_sma_columns_defined (b :: bs) sw lw) as [rows Hrows]; [lia..|].
    rewrite Hrows.
    destruct (Z.ltb_spec (len rows) 2) as [H2 | H2]; [eauto|].
    destruct (iloc_from_end rows (-1)) as [latest Hl]; [lia|].
    destruct (iloc_from_end rows (-2)) as [previous Hp]; [lia|].
    rewrite Hl, Hp. destruct (_ || _); eauto.
Qed.

(** The definition in force always asks for 100 bars.  If the SDK honours
    that limit, a long window above 100 can never be filled and the answer
    is always [hold]. *)
Theorem strategy_never_signals_beyond_default_limit (sym : string) (sw lw : Z) c :
  100 < lw ->
  (forall bars w',
      get_bars (api (self c)) sym "1D" 100 "raw" (world c) = (Ok bars, w') ->
      len bars <= 100) ->
  fst (simple_moving_average_strategy sym sw lw c) = Ok hold.
Proof.
  intros Hlw Hlimit.
  destruct (get_bars (api (self c)) sym "1D" 100 "raw" (world c)) as [r w'] eqn:Hb.
  pose proof (get_historical_data_answer _ _ _ _ _ _ Hb) as Hf.
  rewrite (strategy_short_frame _ _ _ _ _ _ Hf); [reflexivity|].
  destruct r as [bars|e]; [|now left].
  right. specialize (Hlimit bars w' eq_refl). lia.
Qed.

End StrategyReach.

(** * Further properties of the loop and of the script *)

Lemma streak_from_bound (h : list outcome) :
  forall acc : nat, (streak_from acc h <= acc + length h)%nat.
Proof.
  induction h as [|o h IH]; intro acc; simpl; [lia|].
  destruct o.
  - specialize (IH acc). lia.
  - specialize (IH 0%nat). lia.
  - specialize (IH (S acc)). lia.
Qed.

Section MoreLoopFacts.

Context {World : Type}.
Variable tradeapi_REST : string -> string -> string -> result (REST World).
Variable trading_logic :
  string -> TradingBot World * World -> result unit * (TradingBot World * World).
Implicit Types (c : Config World) (sym : string) (rc : nat) (h : list outcome).

Local Abbreviation iteration := (run_bot_iteration trading_logic).
Local Abbreviation outcome_at := (iteration_outcome trading_logic).

(** Every pass beyond the retry check queries the clock once and ends with
    one sleep: 300 seconds when the market is closed, 60 after a successful
    trading iteration, 10 after a failed one. *)
Theorem iteration_schedule sym rc c :
  (rc < max_retries)%nat ->
  events (snd (iteration sym rc c))
  = events c ++ [EvGetClock; EvSleep (pause_after (outcome_at sym c))].
Proof.
  intro Hlt.
  unfold run_bot_iteration, iteration_outcome, try_except, bind at 1.
  destruct (Nat.leb_spec max_retries rc); [lia|].
  destruct (get_clock (api (self c)) (world c)) as [r w'] eqn:Hclock.
  rewrite (check_market_hours_answer _ _ _ Hclock).
  destruct (match r with Ok clock => is_open clock | Raise _ => false end); simpl.
  - unfold bind, run_logic, sleep, ret, called. simpl.
    destruct (trading_logic sym (self c, w')) as [[u|e] [b w2]]; simpl;
      now rewrite <- app_assoc.
  - unfold bind, sleep, ret, called. simpl. now rewrite <- app_assoc.
Qed.

Lemma run_bot_loop_total (fuel : nat) sym :
  forall rc c, exists r cf, run_bot_loop trading_logic fuel sym rc c = (Ok r, cf).
Proof.
  induction fuel as [|fuel IH]; intros rc c; simpl; [unfold ret; eauto|].
  unfold bind at 1.
  destruct (iteration sym rc c) as [ctl c1] eqn:Hstep.
  destruct (iteration_inv _ _ _ _ _ _ Hstep) as [[-> _] | [-> _]].
  - unfold ret. eauto.
  - apply IH.
Qed.

(** [run_bot] never raises.  When it returns, at least three passes were
    made, and the last thing the loop did was the 10-second back-off of the
    failure that exhausted the retries. *)
Theorem run_bot_contains_failures (fuel : nat) sym (strategy : string)
        (trade_amount : Z) (risk_per_trade : Q) (c0 : Config World) :
  (exists r cf,
      run_bot trading_logic fuel sym strategy trade_amount risk_per_trade c0
      = (Ok r, cf)) /\
  (forall cf,
      run_bot trading_logic fuel sym strategy trade_amount risk_per_trade c0
      = (Ok Returned, cf) ->
      (4 <= fuel)%nat /\ exists evs, events cf = evs ++ [EvSleep 10]).
Proof.
  split; [apply run_bot_loop_total|].
  intros cf Hrun. unfold run_bot in Hrun.
  destruct (run_returns_at_head trading_logic sym c0 fuel [] 0%nat c0 cf
                                (head_start _ _ _ _) Hrun)
    as [h [Hlen Hhead]].
  destruct (loop_head_counter _ _ _ _ _ _ Hhead) as [Hrc _].
  split.
  - pose proof (streak_from_bound h 0) as Hb.
    unfold consecutive_failures in Hrc. unfold max_retries in Hrc.
    simpl in Hlen. lia.
  - inversion Hhead as [| h0 rc c rc' c' Hprev Hstep Hh Hrc' Hc].
    pose proof (iteration_inv _ _ _ _ _ _ Hstep) as [[Hb _] | [Hn Hlt]];
      [discriminate|].
    injection Hn as Hn.
    pose proof (iteration_schedule sym rc c Hlt) as Hev.
    rewrite Hstep in Hev. simpl in Hev.
    destruct (outcome_at sym c); simpl in Hn, Hev.
    + lia.
    + unfold max_retries in Hn. discriminate.
    + exists (events c ++ [EvGetClock]). now rewrite <- app_assoc.
Qed.

(** The script raises exactly when construction raises, with the same
    exception, world and trace; in particular a failure of the SDK
    constructor is raised before any call. *)
Theorem main_raises_only_from_construction (fuel : nat)
        (api_key api_secret : string) (w : World) :
  (forall e w' evs,
      main tradeapi_REST trading_logic fuel api_key api_secret w
      = (Raise e, w', evs)
      <-> init tradeapi_REST api_key api_secret default_base_url w
          = (Raise e, w', evs)) /\
  (forall e,
      tradeapi_REST api_key api_secret default_base_url = Raise e ->
      main tradeapi_REST trading_logic fuel api_key api_secret w
      = (Raise e, w, [])).
Proof.
  split.
  - intros e w' evs. unfold main.
    destruct (init tradeapi_REST api_key api_secret default_base_url w)
      as [[[bot|e0] w0] evs0].
    + destruct (run_bot_loop_total fuel "AAPL" 0%nat (mkConfig bot w0 evs0))
        as [r [cf Hr]].
      unfold run_bot. rewrite Hr. split; discriminate.
    + split; intro H; injection H as -> -> ->; reflexivity.
  - intros e He. unfold main, init. now rewrite He.
Qed.

Lemma iteration_when_closed sym rc c (r : result Clock) (w' : World) :
  (rc < max_retries)%nat ->
  get_clock (api (self c)) (world c) = (r, w') ->
  match r with Ok clock => is_open clock = false | Raise _ => True end ->
  iteration sym rc c =
  (Ok (Next rc), mkConfig (self c) w' (events c ++ [EvGetClock; EvSleep 300])).
Proof.
  intros Hlt Hclock Hclosed.
  unfold run_bot_iteration, try_except, bind at 1.
  destruct (Nat.leb_spec max_retries rc); [lia|].
  rewrite (check_market_hours_answer _ _ _ Hclock).
  assert (Hb : match r with Ok clock => is_open clock | Raise _ => false end = false).
  { destruct r; auto. }
  rewrite Hb. simpl. unfold bind, sleep, ret, called. simpl.
  now rewrite <- app_assoc.
Qed.

Lemma run_bot_loop_while_closed sym rc (rest : REST World) (I : World -> Prop) :
  (rc < max_retries)%nat ->
  (forall w, I w ->
             I (snd (get_clock rest w)) /\
             match fst (get_clock rest w) with
             | Ok clock => is_open clock = false
             | Raise _ => True
             end) ->
  forall (fuel : nat) c,
    api (self c) = rest -> I (world c) ->
    exists cf,
      run_bot_loop trading_logic fuel sym rc c = (Ok OutOfFuel, cf) /\
      self cf = self c /\ I (world cf) /\
      events cf = events c ++ concat (repeat [EvGetClock; EvSleep 300] fuel).
Proof.
  intros Hlt Hinv. induction fuel as [|fuel IH]; intros c Hapi Hw; simpl.
  - exists c. unfold ret. rewrite app_nil_r. auto.
  - unfold bind at 1.
    destruct (get_clock (api (self c)) (world c)) as [r w'] eqn:Hclock.
    destruct (Hinv _ Hw) as [Hw' Hclosed].
    rewrite <- Hapi, Hclock in Hw', Hclosed. simpl in Hw', Hclosed.
    rewrite (iteration_when_closed _ _ _ _ _ Hlt Hclock Hclosed).
    destruct (IH (mkConfig (self c) w' (events c ++ [EvGetClock; EvSleep 300])))
      as [cf [Hrun [Hself [Hwf Hev]]]]; [assumption..|].
    exists cf. simpl in *. rewrite Hrun, Hself, Hev, <- app_assoc. auto.
Qed.

(** While the market stays closed (or the clock query keeps failing) the bot
    only polls: each pass is one clock query and a 300-second sleep, the bot
    object is untouched, and the loop never returns. *)
Theorem run_bot_idles_while_closed sym (strategy : string) (trade_amount : Z)
        (risk_per_trade : Q) (I : World -> Prop) (c0 : Config World) :
  I (world c0) ->
  (forall w, I w ->
             I (snd (get_clock (api (self c0)) w)) /\
             match fst (get_clock (api (self c0)) w) with
             | Ok clock => is_open clock = false
             | Raise _ => True
             end) ->
  forall fuel : nat,
  exists cf,
    run_bot trading_logic fuel sym strategy trade_amount risk_per_trade c0
    = (Ok OutOfFuel, cf) /\
    self cf = self c0 /\ I (world cf) /\
    events cf = events c0 ++ concat (repeat [EvGetClock; EvSleep 300] fuel).
Proof.
  intros Hw Hinv fuel. unfold run_bot.
  apply (run_bot_loop_while_closed sym 0 (api (self c0)) I); auto.
  unfold max_retries. lia.
Qed.

End MoreLoopFacts.

(** * Effects of the strategies *)

Section EffectFacts.

Context {arith : RollingArithmetic} {World : Type}.
Implicit Types (c : Config World) (sym : string).

(** The strategies only read: whatever they answer, and also when the
    definition in force raises, the bot object is as before and the only
    event is the single request for bars, so no order is ever submitted. *)
Theorem strategies_only_fetch_bars sym (sw lw : Z) c :
  snd (simple_moving_average_strategy sym sw lw c)
  = called c (EvGetBars sym "1D" 100 "raw")
           (snd (get_bars (api (self c)) sym "1D" 100 "raw" (world c))) /\
  snd (simple_moving_average_strategy_shadowed sym sw lw c)
  = called c (EvGetBars sym "1D" (lw + 10) "raw")
           (snd (get_bars (api (self c)) sym "1D" (lw + 10) "raw" (world c))).
Proof.
  split.
  - destruct (get_bars (api (self c)) sym "1D" 100 "raw" (world c))
      as [r w'] eqn:Hb.
    rewrite (strategy_unfold _ _ _ _ _ _ (get_historical_data_answer _ _ _ _ _ _ Hb)).
    destruct (_ || _); [reflexivity|].
    destruct (add_sma_columns _ sw lw) as [rows|]; [|reflexivity].
    destruct (iloc rows (-1)); [|reflexivity].
    destruct (iloc rows (-2)); reflexivity.
  - destruct (get_bars (api (self c)) sym "1D" (lw + 10) "raw" (world c))
      as [r w'] eqn:Hb.
    rewrite (strategy_shadowed_unfold
               _ _ _ _ _ _ (get_historical_data_answer _ _ _ _ _ _ Hb)).
    destruct (match r with Ok bars => bars | Raise _ => [] end) as [|b bs];
      [reflexivity|].
    destruct (len (b :: bs) <? lw); [reflexivity|].
    destruct (add_sma_columns _ sw lw) as [rows|]; [|reflexivity].
    destruct (len rows <? 2); [reflexivity|].
    destruct (iloc rows (-1)); [|reflexivity].
    destruct (iloc rows (-2)); [|reflexivity].
    destruct (_ || _); reflexivity.
Qed.

End EffectFacts.

(** * Frames of small integers *)

Lemma window_at_map {A B : Type} (f : A -> B) (w i : nat) (xs : list A) :
  window_at w (map f xs) i = map f (window_at w xs i).
Proof. unfold window_at. now rewrite skipn_map, firstn_map. Qed.

Lemma window_at_length {A : Type} (w i : nat) (xs : list A) :
  (w <= S i)%nat -> (i < length xs)%nat -> length (window_at w xs i) = w.
Proof.
  intros Hw Hi. unfold window_at. rewrite length_firstn, length_skipn. lia.
Qed.

Lemma has_missing_of_Z (zs : list Z) : has_missing (map of_Z zs) = false.
Proof.
  unfold has_missing. induction zs as [|z zs IH]; [reflexivity|exact IH].
Qed.

(** On a frame of integers the rolling mean of a full window is the value
    the arithmetic computes. *)
Lemma rolling_at_integers {arith : RollingArithmetic} (w i : nat) (zs : list Z) :
  (0 < w <= S i)%nat ->
  rolling_at w (map of_Z zs) i = window_mean w (map of_Z zs) i.
Proof.
  intros [Hw Hi]. unfold rolling_at.
  rewrite window_at_map, has_missing_of_Z.
  destruct (Nat.eqb_spec w 0); [lia|].
  now destruct (Nat.ltb_spec (S i) w); [lia|].
Qed.

Lemma exact_sum_of_Z (zs : list Z) :
  forall a : Q,
  exists s : Q,
    fold_left exact_add (map of_Z zs) (Fin a) = Fin s /\
    (s == a + inject_Z (total zs))%Q.
Proof.
  induction zs as [|z zs IH]; intro a.
  - exists a. split; [reflexivity|]. simpl. ring.
  - destruct (IH (a + inject_Z z)%Q) as [s [Hs Heq]].
    exists s. split; [exact Hs|].
    rewrite Heq. simpl total. rewrite inject_Z_plus. ring.
Qed.

Lemma rounds_exact (mu m : Q) : (m == mu)%Q -> rounds mu m.
Proof.
  intro H. split; [|auto].
  setoid_replace (m - mu)%Q with 0%Q by (rewrite H; ring).
  apply Qmult_le_0_compat; [apply Qabs_nonneg | discriminate].
Qed.

(** Exact arithmetic rounds nothing, so it is accurate. *)
Lemma exact_arithmetic_accurate : accurate_on_integers exact_arithmetic.
Proof.
  intros w zs i [Hw Hi] Hlen _ _.
  change (window_mean w (map of_Z zs) i)
    with (exact_mean (window_at w (map of_Z zs) i)).
  rewrite window_at_map.
  pose proof (window_at_length w i zs Hi Hlen) as Hwin.
  destruct (exact_sum_of_Z (window_at w zs i) 0%Q) as [s [Hs Heq]].
  exists (s / inject_Z (Z.of_nat w))%Q. split.
  - unfold exact_mean, exact_sum. rewrite length_map, Hwin.
    destruct (window_at w zs i) as [|z win]; [simpl in Hwin; lia|].
    simpl map in *. cbv iota. now rewrite Hs.
  - apply rounds_exact. rewrite Heq. now rewrite Qplus_0_l.
Qed.

Lemma rounds_bounds (mu m : Q) :
  rounds mu m -> (0 <= mu)%Q ->
  (mu - mu * (1 # 9007199254740992) <= m
   /\ m <= mu + mu * (1 # 9007199254740992))%Q.
Proof.
  intros [H _] Hmu. rewrite (Qabs_pos mu Hmu) in H.
  apply Qabs_Qle_condition in H as [H1 H2]. split; lra.
Qed.

(** On a frame of small integers with more rows than either window, the
    two most recent rows hold roundings of the exact means. *)
Lemma last_rows_on_integers (arith : RollingArithmetic) (zs : list Z)
      (sw lw : nat) (rows : list Row) :
  accurate_on_integers arith ->
  (0 < sw < length zs)%nat -> (0 < lw < length zs)%nat ->
  Z.of_nat (length zs) < 2 ^ 53 -> magnitude zs < 2 ^ 53 ->
  add_sma_columns (map PaperBroker.bar_of_close zs) (Z.of_nat sw) (Z.of_nat lw)
  = Ok rows ->
  exists (previous latest : Row) (ps pl ls ll : Q),
    iloc rows (-2) = Ok previous /\ iloc rows (-1) = Ok latest /\
    short_sma previous = Fin ps /\ long_sma previous = Fin pl /\
    short_sma latest = Fin ls /\ long_sma latest = Fin ll /\
    rounds (mean_of sw zs (length zs - 2)) ps /\
    rounds (mean_of lw zs (length zs - 2)) pl /\
    rounds (mean_of sw zs (length zs - 1)) ls /\
    rounds (mean_of lw zs (length zs - 1)) ll.
Proof.
  intros Hacc Hsw Hlw Hlen Hsmall Hrows.
  set (data := map PaperBroker.bar_of_close zs) in *.
  pose proof (add_sma_columns_length _ _ _ _ Hrows) as Hn.
  unfold data in Hn. rewrite length_map in Hn.
  assert (Hclose : map close data = map of_Z zs).
  { unfold data. rewrite map_map. now apply map_ext. }
  assert (Hrow : forall i,
             (sw <= S i)%nat -> (lw <= S i)%nat -> (i < length zs)%nat ->
             exists b s l,
               nth_error rows i = Some (mkRow b (Fin s) (Fin l)) /\
               rounds (mean_of sw zs i) s /\ rounds (mean_of lw zs i) l).
  { intros i Hi1 Hi2 Hi.
    destruct (nth_error data i) as [b|] eqn:Hb.
    2:{ apply nth_error_None in Hb. unfold data in Hb.
        rewrite length_map in Hb. lia. }
    destruct (Hacc sw zs i) as [s [Hs Rs]]; [lia..|assumption|].
    destruct (Hacc lw zs i) as [l [Hl Rl]]; [lia..|assumption|].
    exists b, s, l. split; [|split; assumption].
    rewrite (add_sma_columns_nth _ _ _ _ _ _ Hrows Hb), Hclose, !Nat2Z.id.
    now rewrite !rolling_at_integers, Hs, Hl by lia. }
  destruct (Hrow (length zs - 2)%nat) as [pb [ps [pl [Hp [Rps Rpl]]]]]; [lia..|].
  destruct (Hrow (length zs - 1)%nat) as [lb [ls [ll [Hl [Rls Rll]]]]]; [lia..|].
  exists (mkRow pb (Fin ps) (Fin pl)), (mkRow lb (Fin ls) (Fin ll)), ps, pl, ls, ll.
  split; [|split].
  - change (-2) with (- Z.of_nat 2). rewrite iloc_from_end_nth by lia.
    now rewrite Hn, Hp.
  - change (-1) with (- Z.of_nat 1). rewrite iloc_from_end_nth by lia.
    now rewrite Hn, Hl.
  - simpl. auto 10.
Qed.

(** A rounded 10 is not above a rounded 10, and a rounded mean of 10 and 11
    is above a rounded mean that is below 10.3. *)
Lemma rounded_cross (ps pl ls ll mps mpl mls mll : Q) :
  rounds mps ps -> rounds mpl pl -> rounds mls ls -> rounds mll ll ->
  (mps == 10)%Q -> (mpl == 10)%Q -> (mls == 21 # 2)%Q ->
  (0 <= mll)%Q -> (mll <= 103 # 10)%Q ->
  (ps <= pl /\ ll < ls)%Q.
Proof.
  intros [_ Eps] [_ Epl] Rls Rll Hps Hpl Hls Hll0 Hll.
  split.
  - rewrite (Eps 10 Hps), (Epl 10 Hpl), Hps, Hpl. apply Qle_refl.
  - apply rounds_bounds in Rls; [|rewrite Hls; discriminate].
    apply rounds_bounds in Rll; [|assumption].
    destruct Rls as [Hlow _]. destruct Rll as [_ Hhigh].
    rewrite Hls in Hlow. lra.
Qed.

(** On 50 closes of 10 followed by 11, with windows 2 and 5, every accurate
    arithmetic makes the strategy answer [buy]. *)
Lemma strategy_buys_on_rising_closes (arith : RollingArithmetic) :
  accurate_on_integers arith ->
  fst (simple_moving_average_strategy
         "AAPL" 2 5 (PaperBroker.start (PaperBroker.healthy PaperBroker.rising_closes)))
  = Ok buy.
Proof.
  intro Hacc.
  set (zs := PaperBroker.rising_closes).
  set (c := PaperBroker.start (PaperBroker.healthy zs)).
  assert (Hf : get_historical_data "AAPL" "1D" 100 c
               = (Ok (map PaperBroker.bar_of_close zs),
                  snd (get_historical_data "AAPL" "1D" 100 c)))
    by reflexivity.
  destruct (add_sma_columns_defined (map PaperBroker.bar_of_close zs) 2 5)
    as [rows Hrows]; [lia..|].
  destruct (last_rows_on_integers arith zs 2 5 rows Hacc)
    as [previous [latest [ps [pl [ls [ll
         [Hp [Hl [Hps [Hpl [Hls [Hll [Rps [Rpl [Rls Rll]]]]]]]]]]]]]]];
    [vm_compute; lia | vm_compute; lia | vm_compute; reflexivity
     | vm_compute; reflexivity | exact Hrows |].
  destruct (strategy_decision "AAPL" 2 5 c _ _ rows _ _ ps pl ls ll
                              Hf ltac:(vm_compute; discriminate) Hrows Hp Hl
                              Hps Hpl Hls Hll) as [[_ Hbuy] _].
  rewrite Hbuy; [reflexivity|].
  apply (rounded_cross ps pl ls ll _ _ _ _ Rps Rpl Rls Rll);
    vm_compute; try reflexivity; discriminate.
Qed.

(** With 110 closes of 10 followed by 11 at the broker and windows 2 and 101,
    every accurate arithmetic makes the shadowed definition answer [buy]
    and the definition in force answer [hold]. *)
Lemma strategies_differ_on_fetch_limits (arith : RollingArithmetic) :
  accurate_on_integers arith ->
  fst (simple_moving_average_strategy_shadowed
         "AAPL" 2 101
         (PaperBroker.start (PaperBroker.healthy (repeat 10 110 ++ [11]))))
  = Ok buy /\
  fst (simple_moving_average_strategy
         "AAPL" 2 101
         (PaperBroker.start (PaperBroker.healthy (repeat 10 110 ++ [11]))))
  = Ok hold.
Proof.
  intro Hacc.
  set (zs := repeat 10 110 ++ [11]).
  set (c := PaperBroker.start (PaperBroker.healthy zs)).
  split.
  - assert (Hf : get_historical_data "AAPL" "1D" (101 + 10) c
                 = (Ok (map PaperBroker.bar_of_close zs),
                    snd (get_historical_data "AAPL" "1D" (101 + 10) c)))
      by reflexivity.
    destruct (add_sma_columns_defined (map PaperBroker.bar_of_close zs) 2 101)
      as [rows Hrows]; [lia..|].
    destruct (last_rows_on_integers arith zs 2 101 rows Hacc)
      as [previous [latest [ps [pl [ls [ll
           [Hp [Hl [Hps [Hpl [Hls [Hll [Rps [Rpl [Rls Rll]]]]]]]]]]]]]]];
      [vm_compute; lia | vm_compute; lia | vm_compute; reflexivity
       | vm_compute; reflexivity | exact Hrows |].
    rewrite (strategy_shadowed_applies_crossover
               "AAPL" 2 101 c _ _ rows previous latest Hf
               ltac:(vm_compute; discriminate) Hrows Hp Hl).
    rewrite Hps, Hpl. simpl.
    apply f_equal.
    apply (crossover_buy_iff previous latest ps pl ls ll Hps Hpl Hls Hll).
    apply (rounded_cross ps pl ls ll _ _ _ _ Rps Rpl Rls Rll);
      vm_compute; try reflexivity; discriminate.
  - assert (Hf : get_historical_data "AAPL" "1D" 100 c
                 = (Ok (PaperBroker.recent 100 (map PaperBroker.bar_of_close zs)),
                    snd (get_historical_data "AAPL" "1D" 100 c)))
      by reflexivity.
    rewrite (strategy_short_frame "AAPL" 2 101 c _ _ Hf); [reflexivity|].
    right. vm_compute. reflexivity.
Qed.

(** * The bot on the simulated broker *)

(** C1: with at least [long_window] bars and all four averages of the two
    most recent rows defined, the strategy answers [buy] exactly on an
    upward cross, [sell] exactly on a downward cross and [hold] exactly when
    neither holds, whatever the float arithmetic that produced the averages;
    on 50 closes of 10 followed by 11, with windows 2 and 5, it answers
    [buy] under every arithmetic that is accurate on small integers. *)
Theorem strategy_follows_crossover_rule :
  (forall (arith : RollingArithmetic) (World : Type) (sym : string) (sw lw : Z)
          (c c' : Config World)
          (data : list Bar) (rows : list Row) (previous latest : Row)
          (ps pl ls ll : Q),
      get_historical_data sym "1D" 100 c = (Ok data, c') ->
      lw <= len data ->
      add_sma_columns data sw lw = Ok rows ->
      iloc rows (-2) = Ok previous ->
      iloc rows (-1) = Ok latest ->
      short_sma previous = Fin ps -> long_sma previous = Fin pl ->
      short_sma latest = Fin ls -> long_sma latest = Fin ll ->
      (simple_moving_average_strategy sym sw lw c = (Ok buy, c')
       <-> (ps <= pl /\ ll < ls)%Q) /\
      (simple_moving_average_strategy sym sw lw c = (Ok sell, c')
       <-> (pl <= ps /\ ls < ll)%Q) /\
      (simple_moving_average_strategy sym sw lw c = (Ok hold, c')
       <-> ~ (ps <= pl /\ ll < ls)%Q /\ ~ (pl <= ps /\ ls < ll)%Q)) /\
  (forall arith : RollingArithmetic,
      accurate_on_integers arith ->
      fst (simple_moving_average_strategy
             "AAPL" 2 5
             (PaperBroker.start (PaperBroker.healthy PaperBroker.rising_closes)))
      = Ok buy).
Proof.
  split.
  - intros arith World sym sw lw c c' data rows previous latest ps pl ls ll.
    apply strategy_decision.
  - exact strategy_buys_on_rising_closes.
Qed.

(** From here on frames are evaluated in exact arithmetic. *)
#[local] Existing Instance exact_arithmetic.

Lemma strategy_follows_crossover_rule_witness :
  simple_moving_average_strategy
    "AAPL" 2 5 (PaperBroker.start (PaperBroker.healthy PaperBroker.rising_closes))
  = (Ok buy,
     snd (get_historical_data
            "AAPL" "1D" 100
            (PaperBroker.start (PaperBroker.healthy PaperBroker.rising_closes)))) /\
  fst (simple_moving_average_strategy
         "AAPL" 2 5 (PaperBroker.start (PaperBroker.healthy PaperBroker.rising_closes)))
  = Ok buy.
Proof.
  split.
  - refine (proj2 (proj1 (proj1 strategy_follows_crossover_rule
                            exact_arithmetic PaperBroker.world "AAPL"%string 2 5
                            _ _ _ _ _ _ _ _ _ _
                            _ _ _ _ _ _ _ _ _)) _).
    + reflexivity.
    + vm_compute. discriminate.
    + reflexivity.
    + reflexivity.
    + reflexivity.
    + reflexivity.
    + reflexivity.
    + reflexivity.
    + reflexivity.
    + split; vm_compute; [discriminate | reflexivity].
  - exact (proj2 strategy_follows_crossover_rule
                 exact_arithmetic exact_arithmetic_accurate).
Defined.

Lemma strategy_holds_on_short_series_witness :
  simple_moving_average_strategy
    "AAPL" 2 5 (PaperBroker.start (PaperBroker.healthy [10; 10]))
  = (Ok hold,
     snd (get_historical_data
            "AAPL" "1D" 100 (PaperBroker.start (PaperBroker.healthy [10; 10])))).
Proof.
  apply (strategy_holds_on_short_series
           "AAPL" 2 5 (PaperBroker.start (PaperBroker.healthy [10; 10]))
           (map PaperBroker.bar_of_close [10; 10])).
  - reflexivity.
  - right. vm_compute. reflexivity.
Defined.

(** Five bars and a long window of five: the long average of the
    second-to-last row is missing. *)
Lemma strategy_holds_on_missing_previous_witness :
  let c := PaperBroker.start (PaperBroker.healthy [10; 10; 10; 10; 11]) in
  simple_moving_average_strategy "AAPL" 2 5 c
  = (Ok hold, snd (get_historical_data "AAPL" "1D" 100 c)) /\
  simple_moving_average_strategy_shadowed "AAPL" 2 5 c
  = (Ok hold, snd (get_historical_data "AAPL" "1D" 15 c)).
Proof.
  intro c.
  assert (H := strategy_holds_on_missing_previous
                 "AAPL" 2 5 c (map PaperBroker.bar_of_close [10; 10; 10; 10; 11])).
  edestruct H as [H1 H2].
  - vm_compute. discriminate.
  - reflexivity.
  - reflexivity.
  - right. reflexivity.
  - split; [apply H1 | apply H2]; reflexivity.
Defined.

Lemma strategies_agree_on_same_bars_witness :
  let c := PaperBroker.start (PaperBroker.healthy [10; 10; 10; 10; 10; 10; 11]) in
  exists s : Signal,
    simple_moving_average_strategy_shadowed "AAPL" 2 5 c
    = (Ok s, snd (get_historical_data "AAPL" "1D" 15 c)) /\
    simple_moving_average_strategy "AAPL" 2 5 c
    = (Ok s, snd (get_historical_data "AAPL" "1D" 100 c)).
Proof.
  intro c.
  apply (strategies_agree_on_same_bars
           "AAPL" 2 5 c
           (map PaperBroker.bar_of_close [10; 10; 10; 10; 10; 10; 11]));
    try lia; reflexivity.
Defined.

(** C10 as stated fails.  The two definitions ask for different numbers of
    bars.  Against a broker that serves the most recent bars, 111 bars
    (110 closes of 10, then 11) and windows 2 and 101 tell them apart: the
    shadowed definition asks for 111 bars, sees the cross and answers
    [buy]; the definition in force asks for 100, fewer than its long window,
    and answers [hold]. *)
Remark strategies_fetch_different_frames :
  fst (simple_moving_average_strategy_shadowed
         "AAPL" 2 101
         (PaperBroker.start (PaperBroker.healthy (repeat 10 110 ++ [11]))))
  = Ok buy /\
  fst (simple_moving_average_strategy
         "AAPL" 2 101
         (PaperBroker.start (PaperBroker.healthy (repeat 10 110 ++ [11]))))
  = Ok hold.
Proof. vm_compute. split; reflexivity. Qed.

(** Outside the contract [0 < short_window < long_window]: with a long
    window of one and a single bar there is no second-to-last row; the
    definition in force raises, the shadowed one answers [hold]. *)
Remark strategy_raises_on_single_bar :
  let c := PaperBroker.start (PaperBroker.healthy [10]) in
  fst (simple_moving_average_strategy "AAPL" 1 1 c)
  = Raise (IndexError "single positional indexer is out-of-bounds") /\
  fst (simple_moving_average_strategy_shadowed "AAPL" 1 1 c) = Ok hold.
Proof. vm_compute. split; reflexivity. Qed.

Lemma read_accessors_degrade_witness :
  get_position PaperBroker.float "AAPL" (PaperBroker.start PaperBroker.outage)
  = (Ok None,
     called (PaperBroker.start PaperBroker.outage) (EvGetPosition "AAPL")
            PaperBroker.outage) /\
  check_market_hours (PaperBroker.start PaperBroker.outage)
  = (Ok false,
     called (PaperBroker.start PaperBroker.outage) EvGetClock PaperBroker.outage).
Proof.
  destruct (read_accessors_degrade
              PaperBroker.float "AAPL" (PaperBroker.start PaperBroker.outage))
    as [_ [Hpos [_ [Hclock _]]]].
  split.
  - apply (Hpos (APIError "position does not exist")). reflexivity.
  - apply (Hclock (ConnectionError "unreachable")). reflexivity.
Defined.

(** The side "hold" is refused without a submission; a rejected "BUY" yields
    no order either. *)
Lemma execute_trade_contains_failures_witness :
  execute_trade "AAPL" 1 "hold" "market" "gtc"
                (PaperBroker.start (PaperBroker.healthy []))
  = (Ok None, PaperBroker.start (PaperBroker.healthy [])) /\
  fst (execute_trade "AAPL" 1 "BUY" "market" "gtc"
                     (PaperBroker.start PaperBroker.outage))
  = Ok None.
Proof.
  split.
  - apply (proj1 (proj2 (execute_trade_contains_failures
                           "AAPL" 1 "hold" "market" "gtc"
                           (PaperBroker.start (PaperBroker.healthy [])))));
      vm_compute; discriminate.
  - rewrite (proj2 (proj2 (execute_trade_contains_failures
                             "AAPL" 1 "BUY" "market" "gtc"
                             (PaperBroker.start PaperBroker.outage)))
               (or_introl eq_refl)
               (APIError "order rejected") PaperBroker.outage eq_refl).
    reflexivity.
Defined.

(** Three failed iterations in a row: the loop returns at its fourth head. *)
Lemma retry_counter_discipline_witness :
  exists h : list outcome,
    (length h < 4)%nat /\
    loop_head PaperBroker.failing_logic "AAPL"
              (PaperBroker.start (PaperBroker.healthy [])) h max_retries
              (snd (run_bot PaperBroker.failing_logic 4 "AAPL" "sma" 1000 (1 # 100)
                            (PaperBroker.start (PaperBroker.healthy [])))) /\
    consecutive_failures h = max_retries.
Proof.
  apply (proj2 (retry_counter_discipline
                  PaperBroker.failing_logic "AAPL" "sma" 1000 (1 # 100)
                  (PaperBroker.start (PaperBroker.healthy [])))).
  reflexivity.
Defined.

Lemma market_closed_pass_witness :
  run_bot_iteration PaperBroker.no_logic "AAPL" 1
                    (PaperBroker.start PaperBroker.after_hours)
  = (Ok (Next 1),
     mkConfig PaperBroker.bot PaperBroker.after_hours [EvGetClock; EvSleep 300]).
Proof.
  apply (market_closed_pass
           PaperBroker.no_logic "AAPL" 1 (PaperBroker.start PaperBroker.after_hours)
           (Ok (mkClock false)) PaperBroker.after_hours).
  - unfold max_retries. lia.
  - reflexivity.
  - reflexivity.
Defined.

Lemma init_fails_fast_witness :
  main PaperBroker.connect PaperBroker.no_logic 10 "key" "secret" PaperBroker.outage
  = (Raise (ConnectionError "unreachable"), PaperBroker.outage, [EvGetClock]).
Proof.
  apply (proj1 (init_fails_fast
                  PaperBroker.connect PaperBroker.no_logic
                  "key" "secret" default_base_url PaperBroker.outage
                  PaperBroker.rest eq_refl)).
  - reflexivity.
  - reflexivity.
Defined.

(** C9 as stated fails: the probe succeeds, the account fetch does not, and
    construction raises. *)
Lemma construction_raises_after_good_probe :
  fst (get_clock PaperBroker.rest PaperBroker.account_outage)
  = Ok (mkClock true) /\
  init PaperBroker.connect "key" "secret" default_base_url
       PaperBroker.account_outage
  = (Raise (ConnectionError "unreachable"), PaperBroker.account_outage,
     [EvGetClock; EvGetAccount]).
Proof. split; reflexivity. Qed.

(** C4: the account fetch fails and [get_account_info] raises the failure to
    its caller; [get_position], next to it, turns the same failure into
    [None]. *)
Theorem get_account_info_raises_on_failed_fetch :
  get_account_info PaperBroker.float (PaperBroker.start PaperBroker.outage)
  = (Raise (ConnectionError "unreachable"),
     called (PaperBroker.start PaperBroker.outage) EvGetAccount PaperBroker.outage).
Proof. reflexivity. Qed.


Lemma strategies_hold_when_bars_unavailable_witness :
  let c := PaperBroker.start (PaperBroker.healthy []) in
  simple_moving_average_strategy "AAPL" 20 50 c
  = (Ok hold, called c (EvGetBars "AAPL" "1D" 100 "raw") (PaperBroker.healthy [])) /\
  simple_moving_average_strategy_shadowed "AAPL" 20 50 c
  = (Ok hold, called c (EvGetBars "AAPL" "1D" 60 "raw") (PaperBroker.healthy [])).
Proof.
  intro c.
  destruct (strategies_hold_when_bars_unavailable "AAPL" 20 50 c) as [H1 H2].
  split.
  - apply (H1 (Ok [])); reflexivity.
  - apply (H2 (Ok [])); reflexivity.
Defined.

Lemma get_account_info_stores_snapshot_witness :
  let c := PaperBroker.start PaperBroker.after_hours in
  account (self (snd (get_account_info PaperBroker.float c)))
  = PaperBroker.the_account /\
  exists bp ca pv eq : Q,
    fst (get_account_info PaperBroker.float c)
    = Ok (mkAccountInfo (Fin bp) (Fin ca) (Fin pv) (Fin eq)) /\
    (bp == 2000 /\ ca == 1000 /\ pv == 3000 /\ eq == 3000)%Q.
Proof.
  intro c.
  destruct (get_account_info_stores_snapshot
              PaperBroker.float c PaperBroker.the_account PaperBroker.after_hours
              eq_refl) as [Hsnd [Hfst _]].
  split.
  - rewrite Hsnd. reflexivity.
  - rewrite Hfst. vm_compute. do 4 eexists.
    split; [reflexivity|]. repeat split.
Defined.

Lemma execute_trade_submits_once_witness :
  let c := PaperBroker.start (PaperBroker.healthy []) in
  events (snd (execute_trade "AAPL" 1 "BUY" "market" "gtc" c))
  = [EvSubmitOrder (mkOrderRequest "AAPL" 1 "BUY" "market" "gtc")].
Proof.
  intro c.
  rewrite (proj2 (execute_trade_submits_once
                    "AAPL" 1 "BUY" "market" "gtc" c (mkOrder "order-1"))
                 (or_introl eq_refl)).
  reflexivity.
Defined.

Lemma strategy_raises_iff_single_bar_witness :
  exists e,
    fst (simple_moving_average_strategy
           "AAPL" 1 1 (PaperBroker.start (PaperBroker.healthy [10])))
    = Raise e.
Proof.
  destruct (strategy_raises_iff_single_bar
              "AAPL" 1 1 (PaperBroker.start (PaperBroker.healthy [10]))
              (map PaperBroker.bar_of_close [10])
              (snd (get_historical_data
                      "AAPL" "1D" 100
                      (PaperBroker.start (PaperBroker.healthy [10])))))
    as [H _].
  - lia.
  - lia.
  - reflexivity.
  - apply H. split; [reflexivity | lia].
Defined.

Lemma strategy_never_signals_beyond_default_limit_witness :
  fst (simple_moving_average_strategy
         "AAPL" 2 101
         (PaperBroker.start (PaperBroker.healthy (repeat 10 110 ++ [11]))))
  = Ok hold.
Proof.
  apply strategy_never_signals_beyond_default_limit.
  - lia.
  - intros bars w' H. injection H as <- _. vm_compute. discriminate.
Defined.

Lemma iteration_schedule_witness :
  events (snd (run_bot_iteration PaperBroker.failing_logic "AAPL" 0
                                 (PaperBroker.start (PaperBroker.healthy []))))
  = [EvGetClock; EvSleep 10].
Proof.
  rewrite (iteration_schedule PaperBroker.failing_logic "AAPL" 0
                              (PaperBroker.start (PaperBroker.healthy []))).
  - reflexivity.
  - unfold max_retries. lia.
Defined.

Lemma run_bot_contains_failures_witness :
  exists evs,
    events (snd (run_bot PaperBroker.failing_logic 4 "AAPL" "sma" 1000 (1 # 100)
                         (PaperBroker.start (PaperBroker.healthy []))))
    = evs ++ [EvSleep 10].
Proof.
  apply (proj2 (run_bot_contains_failures
                  PaperBroker.failing_logic 4 "AAPL" "sma" 1000 (1 # 100)
                  (PaperBroker.start (PaperBroker.healthy [])))).
  reflexivity.
Defined.

Lemma main_raises_only_from_construction_witness :
  main (fun _ _ _ => Raise (ValueError "Key ID must be given"))
       PaperBroker.no_logic 10 "" "" PaperBroker.outage
  = (Raise (ValueError "Key ID must be given"), PaperBroker.outage, []).
Proof.
  apply (proj2 (main_raises_only_from_construction
                  (fun _ _ _ => Raise (ValueError "Key ID must be given"))
                  PaperBroker.no_logic 10 "" "" PaperBroker.outage)).
  reflexivity.
Defined.

Lemma run_bot_idles_while_closed_witness :
  exists cf,
    run_bot PaperBroker.failing_logic 3 "AAPL" "sma" 1000 (1 # 100)
            (PaperBroker.start PaperBroker.after_hours)
    = (Ok OutOfFuel, cf) /\
    self cf = PaperBroker.bot /\
    world cf = PaperBroker.after_hours /\
    events cf = [EvGetClock; EvSleep 300; EvGetClock; EvSleep 300;
                 EvGetClock; EvSleep 300].
Proof.
  apply (run_bot_idles_while_closed
           PaperBroker.failing_logic "AAPL" "sma" 1000 (1 # 100)
           (fun w => w = PaperBroker.after_hours)
           (PaperBroker.start PaperBroker.after_hours)).
  - reflexivity.
  - intros w ->. split; reflexivity.
Defined.
